(** * cofre: a password-protected secrets vault

    A shallow embedding of the Go program: [crypto.go] (key derivation and
    AES-256-GCM), [vault.go] (the envelope file, load, save, create) and the
    command layer of [main.go] ([cmdInit], [cmdSet], [cmdDelete], ...).  The
    packages under [internal/] are the same code split by package
    ([vault.Load] is [LoadVault], [cli.Delete] is [cmdDelete], ...).

    Go errors are values; a function returning [(T, error)] becomes a
    computation with an [outcome]: a result, an error, a run-time panic, or
    the process exit of [os.Exit] (with what the process had printed).  A
    command evaluates to the lines it prints.  What the code reads from and
    writes to
    its environment (home directory, file system, random source, terminal)
    is an explicit [World]. *)

From Stdlib.Strings Require Import Byte.
From stdpp Require Import gmap strings list sorting.


(** ** Bytes *)

#[global] Instance byte_eq_dec : EqDecision byte := Byte.byte_eq_dec.

(** [[]byte(s)] *)
Definition bytes_of (s : string) : list byte := String.list_byte_of_string s.

(** ** Errors *)

(** An [error] is a message, possibly wrapping its cause as
    [fmt.Errorf("...: %w", err)] does; [fs.ErrNotExist] is kept apart
    because [os.IsNotExist] tests for it. *)
Inductive error : Type :=
| ErrNotExist
| ErrNew (msg : string)
| Wrap (msg : string) (cause : error).

#[global] Instance error_eq_dec : EqDecision error.
Proof. solve_decision. Defined.

Inductive outcome (A : Type) : Type :=
| Ret (a : A)
| Fail (e : error)
| Panic (msg : string)
| Exit (code : nat) (printed : list string).
Arguments Ret {A} a.
Arguments Fail {A} e.
Arguments Panic {A} msg.
Arguments Exit {A} code printed.

(** ** The data of [vault.go] *)

(** A Go [string] is a Rocq [string]: a sequence of bytes, taken to hold
    text (valid UTF-8), which is what [encoding/json] represents exactly.

    [map[string]string]: a Go map value is either nil or a table. *)
Definition gomap : Type := option (gmap string string).

(** [v, ok := m[k]] *)
Definition map_index (m : gomap) (k : string) : option string :=
  match m with
  | Some t => t !! k
  | None => None
  end.

(** [m[k] = v]; assignment to an entry of a nil map panics. *)
Definition map_assign (m : gomap) (k v : string) : outcome gomap :=
  match m with
  | Some t => Ret (Some (<[k:=v]> t))
  | None => Panic "assignment to entry in nil map"
  end.

(** [delete(m, k)]; a no-op on a nil map. *)
Definition map_delete (m : gomap) (k : string) : gomap :=
  match m with
  | Some t => Some (delete k t)
  | None => None
  end.

(** [make(map[string]string)] *)
Definition map_make : gomap := Some ∅.

Record VaultFile : Type := mkVaultFile {
  Version : Z;
  Salt : string;
  Nonce : string;
  Data : string;
}.

Record SecretsData : Type := mkSecretsData {
  Secrets : gomap;
}.

(** ** The environment *)

(** How the next [os.WriteFile] goes: to the end, not at all (the open
    fails), or stopping after [k] bytes.  [os.WriteFile] truncates the file
    and then writes, in several system calls, so a failure in between leaves
    the file partially written. *)
Inductive disk_fault : Type :=
| NoFault
| OpenFails
| WriteStops (k : nat).

Record World : Type := mkWorld {
  home : option string;             (* the user's home directory, if known *)
  files : gmap string (list byte);  (* the file system: path to content *)
  entropy : list byte;              (* what crypto/rand will deliver next *)
  fault : disk_fault;
  tty : list string;                (* what the terminal will deliver next *)
  mem : option SecretsData;         (* the *SecretsData a command holds *)
}.

Definition IO (A : Type) : Type := World → outcome A * World.

#[global] Instance IO_ret : MRet IO := λ A a w, (Ret a, w).

#[global] Instance IO_bind : MBind IO := λ A B f m w,
  match m w with
  | (Ret a, w') => f a w'
  | (Fail e, w') => (Fail e, w')
  | (Panic s, w') => (Panic s, w')
  | (Exit c s, w') => (Exit c s, w')
  end.

(** A pure step that may fail or panic. *)
Definition liftO {A} (o : outcome A) : IO A := λ w, (o, w).

(** [if err != nil { return fmt.Errorf(msg + ": %w", err) }] *)
Definition wrap {A} (msg : string) (m : IO A) : IO A := λ w,
  match m w with
  | (Fail e, w') => (Fail (Wrap msg e), w')
  | r => r
  end.

(** A library decoder: [None] is its error, reported with the package's
    message. *)
Definition decoded {A} (pkg : string) (o : option A) : IO A :=
  liftO (match o with Some a => Ret a | None => Fail (ErrNew pkg) end).

(** Runs [m] and hands its error to the caller as a value, as
    [_, err := f()] followed by tests on [err]. *)
Definition attempt {A} (m : IO A) : IO (A + error) := λ w,
  match m w with
  | (Ret a, w') => (Ret (inl a), w')
  | (Fail e, w') => (Ret (inr e), w')
  | (Panic s, w') => (Panic s, w')
  | (Exit c s, w') => (Exit c s, w')
  end.

(** ** The packages the program imports

    [golang.org/x/crypto/argon2], [crypto/aes] with [crypto/cipher],
    [encoding/base64] and [encoding/json] are not code of this repository:
    they are taken as an interface, [Lib], with the contracts their
    documentation gives, [LibSpec]. *)
Class Lib : Type := {
  (** [argon2.IDKey(password, salt, time, memory, threads, keyLen)] *)
  argon2_IDKey : list byte → list byte → N → N → N → N → list byte;
  (** AES-GCM under a key, with a 12-byte nonce and no additional data:
      what [Seal] appends and what [Open] recovers when the tag verifies. *)
  aead_Seal : list byte → list byte → list byte → list byte;
  aead_Open : list byte → list byte → list byte → option (list byte);
  (** [base64.StdEncoding] *)
  base64_EncodeToString : list byte → string;
  base64_DecodeString : string → option (list byte);
  (** [json.Marshal] of a [*SecretsData], [json.MarshalIndent] of a
      [VaultFile], and [json.Unmarshal] into a zero value of each type. *)
  json_Marshal : SecretsData → option (list byte);
  json_MarshalIndent : VaultFile → option (list byte);
  json_Unmarshal_SecretsData : list byte → option SecretsData;
  json_Unmarshal_VaultFile : list byte → option VaultFile;
}.

Class LibSpec (L : Lib) : Prop := {
  (** [IDKey] returns a key of the length asked for. *)
  argon2_IDKey_length p s t m th n :
    length (argon2_IDKey p s t m th n) = N.to_nat n;
  (** Opening what was sealed, under the same 256-bit key and 96-bit nonce,
      gives the plaintext back. *)
  aead_Open_Seal k n p :
    length k = 32 → length n = 12 →
    aead_Open k n (aead_Seal k n p) = Some p;
  base64_Decode_Encode b :
    base64_DecodeString (base64_EncodeToString b) = Some b;
  (** Both types hold strings, integers and a string map only, which
      [encoding/json] always encodes, and decodes to what was encoded. *)
  json_Marshal_total d : is_Some (json_Marshal d);
  json_MarshalIndent_total v : is_Some (json_MarshalIndent v);
  json_Unmarshal_Marshal d b :
    json_Marshal d = Some b → json_Unmarshal_SecretsData b = Some d;
  json_Unmarshal_MarshalIndent v b :
    json_MarshalIndent v = Some b → json_Unmarshal_VaultFile b = Some v;
}.

(** The integrity an AEAD is used for, stated without probabilities: a
    ciphertext opens only under the key and nonce it was sealed with, and a
    sealed ciphertext with one byte changed is not a sealed ciphertext.  For
    AES-GCM these fail with probability about 2^-128; here they are
    assumptions, named where a theorem uses them. *)
Class IdealAEAD (L : Lib) : Prop := {
  aead_Open_sealed k n c p :
    length k = 32 → length n = 12 →
    aead_Open k n c = Some p → c = aead_Seal k n p;
  aead_Seal_binds k n p k' n' p' :
    length k = 32 → length k' = 32 → length n = 12 → length n' = 12 →
    aead_Seal k n p = aead_Seal k' n' p' → k = k' ∧ n = n';
  aead_Seal_tamper k n p p' l1 b b' l2 :
    length k = 32 → length n = 12 →
    aead_Seal k n p = l1 ++ b :: l2 → b ≠ b' →
    aead_Seal k n p' ≠ l1 ++ b' :: l2;
}.

(** ** The operating system *)

Definition set_files (f : gmap string (list byte)) (w : World) : World :=
  mkWorld (home w) f (entropy w) (fault w) (tty w) (mem w).
Definition set_entropy (e : list byte) (w : World) : World :=
  mkWorld (home w) (files w) e (fault w) (tty w) (mem w).
Definition set_tty (t : list string) (w : World) : World :=
  mkWorld (home w) (files w) (entropy w) (fault w) t (mem w).
Definition set_mem (d : option SecretsData) (w : World) : World :=
  mkWorld (home w) (files w) (entropy w) (fault w) (tty w) d.

(** [os.UserHomeDir] *)
Definition os_UserHomeDir : IO string := λ w,
  match home w with
  | Some h => (Ret h, w)
  | None => (Fail (ErrNew "$HOME is not defined"), w)
  end.

(** [filepath.Join(dir, name)], for a clean [dir]. *)
Definition filepath_Join (dir name : string) : string := dir +:+ "/" +:+ name.

(** [os.Stat], for its error only. *)
Definition os_Stat (path : string) : IO unit := λ w,
  match files w !! path with
  | Some _ => (Ret (), w)
  | None => (Fail ErrNotExist, w)
  end.

Definition os_IsNotExist (e : error) : bool := bool_decide (e = ErrNotExist).

(** [os.ReadFile] *)
Definition os_ReadFile (path : string) : IO (list byte) := λ w,
  match files w !! path with
  | Some content => (Ret content, w)
  | None => (Fail ErrNotExist, w)
  end.

(** [os.WriteFile(path, data, 0600)]: open with O_CREATE and O_TRUNC, write,
    close.  There is no temporary file and no rename. *)
Definition os_WriteFile (path : string) (data : list byte) : IO unit := λ w,
  match fault w with
  | NoFault => (Ret (), set_files (<[path:=data]> (files w)) w)
  | OpenFails => (Fail (ErrNew "open: permission denied"), w)
  | WriteStops k =>
      if decide (k < length data)
      then (Fail (ErrNew "write: no space left on device"),
            set_files (<[path:=take k data]> (files w)) w)
      else (Ret (), set_files (<[path:=data]> (files w)) w)
  end.

(** [rand.Read(b)] of [crypto/rand], for [b] of [n] bytes. *)
Definition rand_Read (n : nat) : IO (list byte) := λ w,
  if decide (n ≤ length (entropy w))
  then (Ret (take n (entropy w)), set_entropy (drop n (entropy w)) w)
  else (Fail (ErrNew "crypto/rand: entropy source unavailable"), w).

Section Program.
Context {L : Lib}.

(** ** crypto.go *)

Definition SaltSize : nat := 16.
Definition NonceSize : nat := 12.
Definition KeySize : N := 32.
Definition ArgonTime : N := 1.
Definition ArgonMem : N := 64 * 1024.
Definition ArgonThreads : N := 4.

Definition DeriveKey (password : string) (salt : list byte) : list byte :=
  argon2_IDKey (bytes_of password) salt ArgonTime ArgonMem ArgonThreads KeySize.

Definition GenerateSalt : IO (list byte) :=
  wrap "failed to generate salt" (rand_Read SaltSize).

(** [aes.NewCipher]: a key of 16, 24 or 32 bytes, or a [KeySizeError]. *)
Definition aes_NewCipher (key : list byte) : outcome (list byte) :=
  if decide (length key = 16 ∨ length key = 24 ∨ length key = 32)
  then Ret key
  else Fail (ErrNew "crypto/aes: invalid key size").

(** [cipher.NewGCM]: fails on a block size other than 16 only, which AES
    never has. *)
Definition cipher_NewGCM (block : list byte) : outcome (list byte) := Ret block.

(** [gcm.Seal(nil, nonce, plaintext, nil)] *)
Definition gcm_Seal (gcm nonce plaintext : list byte) : list byte :=
  aead_Seal gcm nonce plaintext.

(** [gcm.Open(nil, nonce, ciphertext, nil)].  [Open] of [crypto/cipher]
    panics with this message when the nonce is not of [NonceSize()] bytes,
    and returns an error when the tag does not verify. *)
Definition gcm_Open (gcm nonce ciphertext : list byte) : outcome (list byte) :=
  if decide (length nonce = NonceSize)
  then match aead_Open gcm nonce ciphertext with
       | Some plaintext => Ret plaintext
       | None => Fail (ErrNew "cipher: message authentication failed")
       end
  else Panic "crypto/cipher: incorrect nonce length given to GCM".

Definition Encrypt (plaintext key : list byte) : IO (list byte * list byte) :=
  block ← wrap "failed to create cipher" (liftO (aes_NewCipher key));
  gcm ← wrap "failed to create GCM" (liftO (cipher_NewGCM block));
  nonce ← wrap "failed to generate nonce" (rand_Read NonceSize);
  let ciphertext := gcm_Seal gcm nonce plaintext in
  mret (nonce, ciphertext).

Definition Decrypt (ciphertext nonce key : list byte) : IO (list byte) :=
  block ← wrap "failed to create cipher" (liftO (aes_NewCipher key));
  gcm ← wrap "failed to create GCM" (liftO (cipher_NewGCM block));
  plaintext ← wrap "failed to decrypt" (liftO (gcm_Open gcm nonce ciphertext));
  mret plaintext.

(** ** vault.go *)

Definition VaultFileName : string := ".secrets-vault.json".

Definition GetVaultPath : IO string :=
  home ← wrap "failed to get home directory" os_UserHomeDir;
  mret (filepath_Join home VaultFileName).

Definition VaultExists : IO bool :=
  path ← GetVaultPath;
  r ← attempt (os_Stat path);
  match r with
  | inr err => if os_IsNotExist err then mret false else liftO (Fail err)
  | inl _ => mret true
  end.

Definition LoadVault (password : string) : IO (SecretsData * list byte) :=
  path ← GetVaultPath;
  fileData ← wrap "failed to read vault file" (os_ReadFile path);
  vault ← wrap "failed to parse vault file"
            (decoded "encoding/json" (json_Unmarshal_VaultFile fileData));
  salt ← wrap "failed to decode salt"
           (decoded "encoding/base64" (base64_DecodeString (Salt vault)));
  nonce ← wrap "failed to decode nonce"
            (decoded "encoding/base64" (base64_DecodeString (Nonce vault)));
  ciphertext ← wrap "failed to decode data"
                 (decoded "encoding/base64" (base64_DecodeString (Data vault)));
  let key := DeriveKey password salt in
  plaintext ← wrap "failed to decrypt vault (wrong password?)"
                (Decrypt ciphertext nonce key);
  secrets ← wrap "failed to parse secrets"
              (decoded "encoding/json" (json_Unmarshal_SecretsData plaintext));
  mret (secrets, salt).

Definition SaveVault (data : SecretsData) (password : string) (salt : list byte)
  : IO unit :=
  path ← GetVaultPath;
  plaintext ← wrap "failed to serialize secrets"
                (decoded "encoding/json" (json_Marshal data));
  let key := DeriveKey password salt in
  '(nonce, ciphertext) ← wrap "failed to encrypt vault" (Encrypt plaintext key);
  let vault := {|
    Version := 1;
    Salt := base64_EncodeToString salt;
    Nonce := base64_EncodeToString nonce;
    Data := base64_EncodeToString ciphertext;
  |} in
  fileData ← wrap "failed to serialize vault"
               (decoded "encoding/json" (json_MarshalIndent vault));
  wrap "failed to write vault file" (os_WriteFile path fileData).

Definition CreateVault (password : string) : IO unit :=
  salt ← GenerateSalt;
  let data := {| Secrets := map_make |} in
  SaveVault data password salt.

End Program.

(** ** main.go: the commands *)

(** [err.Error()] *)
Fixpoint Error_ (e : error) : string :=
  match e with
  | ErrNotExist => "file does not exist"
  | ErrNew msg => msg
  | Wrap msg cause => msg +:+ ": " +:+ Error_ cause
  end.

(** Print [lines], then [os.Exit(1)]. *)
Definition fatal {A} (lines : list string) : IO A := λ w, (Exit 1 lines, w).

(** [if err != nil { fmt.Fprintf(os.Stderr, "Error: %v\n", err); os.Exit(1) }] *)
Definition fatalErr {A} (m : IO A) : IO A := λ w,
  match m w with
  | (Fail e, w') => (Exit 1 ["Error: " +:+ Error_ e], w')
  | r => r
  end.

(** [term.ReadPassword]: the next line the terminal delivers. *)
Definition term_ReadPassword : IO string := λ w,
  match tty w with
  | line :: rest => (Ret line, set_tty rest w)
  | [] => (Fail (ErrNew "EOF"), w)
  end.

(** [for k := range m { keys = append(keys, k) }], in some order. *)
Definition map_keys (m : gomap) : list string :=
  match m with
  | Some t => (map_to_list t).*1
  | None => []
  end.

(** [sort.Strings]: ascending, comparing byte by byte. *)
Definition sort_Strings (l : list string) : list string :=
  merge_sort (λ a b, String.leb a b) l.

Definition printUsage : list string :=
  ["secrets - A secure secrets manager";
   "";
   "Usage:";
   "  secrets init          Create a new vault";
   "  secrets set <key>     Add or update a secret";
   "  secrets get <key>     Retrieve a secret";
   "  secrets list          List all secret keys";
   "  secrets delete <key>  Remove a secret";
   "  secrets help          Show this help message"].

(** The [*SecretsData] the command holds from here on. *)
Definition hold (d : SecretsData) : IO unit := λ w, (Ret (), set_mem (Some d) w).

Section Commands.
Context {L : Lib}.

Definition readPassword (prompt : string) : IO string :=
  wrap "failed to read password" term_ReadPassword.

Definition cmdInit : IO (list string) :=
  exists_ ← fatalErr VaultExists;
  if exists_ : bool then
    fatal ["Error: vault already exists";
           "Delete ~/.secrets-vault.json to create a new vault"]
  else
  password ← fatalErr (readPassword "Enter master password: ");
  if decide (String.length password < 8) then
    fatal ["Error: password must be at least 8 characters"]
  else
  confirm ← fatalErr (readPassword "Confirm master password: ");
  if decide (password ≠ confirm) then
    fatal ["Error: passwords do not match"]
  else
  fatalErr (CreateVault password);;
  mret ["Vault created successfully"].

Definition cmdSet (key : string) : IO (list string) :=
  exists_ ← fatalErr VaultExists;
  if negb exists_ then
    fatal ["Error: vault does not exist"; "Run 'secrets init' first"]
  else
  password ← fatalErr (readPassword "Enter master password: ");
  '(data, salt) ← fatalErr (LoadVault password);
  hold data;;
  value ← fatalErr (readPassword "Enter secret value: ");
  let updating := bool_decide (is_Some (map_index (Secrets data) key)) in
  secrets ← liftO (map_assign (Secrets data) key value);
  let data := {| Secrets := secrets |} in
  hold data;;
  fatalErr (SaveVault data password salt);;
  if updating then mret ["Secret '" +:+ key +:+ "' updated"]
  else mret ["Secret '" +:+ key +:+ "' added"].

Definition cmdGet (key : string) : IO (list string) :=
  exists_ ← fatalErr VaultExists;
  if negb exists_ then
    fatal ["Error: vault does not exist"; "Run 'secrets init' first"]
  else
  password ← fatalErr (readPassword "Enter master password: ");
  '(data, _) ← fatalErr (LoadVault password);
  hold data;;
  match map_index (Secrets data) key with
  | None => fatal ["Error: secret '" +:+ key +:+ "' not found"]
  | Some value => mret [value]
  end.

Definition cmdDelete (key : string) : IO (list string) :=
  exists_ ← fatalErr VaultExists;
  if negb exists_ then
    fatal ["Error: vault does not exist"; "Run 'secrets init' first"]
  else
  password ← fatalErr (readPassword "Enter master password: ");
  '(data, salt) ← fatalErr (LoadVault password);
  hold data;;
  match map_index (Secrets data) key with
  | None => fatal ["Error: secret '" +:+ key +:+ "' not found"]
  | Some _ =>
      let data := {| Secrets := map_delete (Secrets data) key |} in
      hold data;;
      fatalErr (SaveVault data password salt);;
      mret ["Secret '" +:+ key +:+ "' deleted"]
  end.

Definition cmdList : IO (list string) :=
  exists_ ← fatalErr VaultExists;
  if negb exists_ then
    fatal ["Error: vault does not exist"; "Run 'secrets init' first"]
  else
  password ← fatalErr (readPassword "Enter master password: ");
  '(data, _) ← fatalErr (LoadVault password);
  hold data;;
  let keys := map_keys (Secrets data) in
  if decide (length keys = 0) then mret ["No secrets stored"]
  else mret (sort_Strings keys).

(** [main], given [os.Args]. *)
Definition main (args : list string) : IO (list string) :=
  match args with
  | _ :: command :: rest =>
      if decide (command = "init") then cmdInit
      else if decide (command = "set") then
        match rest with
        | key :: _ => cmdSet key
        | [] => fatal ["Error: missing key argument"; "Usage: secrets set <key>"]
        end
      else if decide (command = "get") then
        match rest with
        | key :: _ => cmdGet key
        | [] => fatal ["Error: missing key argument"; "Usage: secrets get <key>"]
        end
      else if decide (command = "list") then cmdList
      else if decide (command = "delete") then
        match rest with
        | key :: _ => cmdDelete key
        | [] => fatal ["Error: missing key argument";
                       "Usage: secrets delete <key>"]
        end
      else if decide (command = "help" ∨ command = "--help" ∨ command = "-h")
      then mret printUsage
      else fatal (("Error: unknown command '" +:+ command +:+ "'") :: printUsage)
  | _ => fatal printUsage
  end.

End Commands.

(** ** internal/vault and internal/cli

    The same program split into packages.  Package [vault] is [vault.go]
    with shorter names; package [cli] factors the checks the commands share
    into [requireVault], [requireNoVault] and [unlockVault]. *)
Module vault.
Section Vault.
Context {L : Lib}.
Definition Exists : IO bool := VaultExists.
Definition Load : string → IO (SecretsData * list byte) := LoadVault.
Definition Save : SecretsData → string → list byte → IO unit := SaveVault.
Definition Create : string → IO unit := CreateVault.
End Vault.
End vault.

Module cli.
Section Cli.
Context {L : Lib}.

Definition ReadPassword (prompt : string) : IO string :=
  wrap "failed to read password" term_ReadPassword.

Definition requireVault : IO unit :=
  exists_ ← fatalErr vault.Exists;
  if negb exists_ then
    fatal ["Error: vault does not exist"; "Run 'secrets init' first"]
  else mret ().

Definition requireNoVault : IO unit :=
  exists_ ← fatalErr vault.Exists;
  if exists_ : bool then
    fatal ["Error: vault already exists";
           "Delete ~/.secrets-vault.json to create a new vault"]
  else mret ().

Definition unlockVault : IO (SecretsData * list byte * string) :=
  password ← fatalErr (ReadPassword "Enter master password: ");
  '(data, salt) ← fatalErr (vault.Load password);
  hold data;;
  mret (data, salt, password).

Definition Init : IO (list string) :=
  requireNoVault;;
  password ← fatalErr (ReadPassword "Enter master password: ");
  if decide (String.length password < 8) then
    fatal ["Error: password must be at least 8 characters"]
  else
  confirm ← fatalErr (ReadPassword "Confirm master password: ");
  if decide (password ≠ confirm) then
    fatal ["Error: passwords do not match"]
  else
  fatalErr (vault.Create password);;
  mret ["Vault created successfully"].

Definition Set_ (key : string) : IO (list string) :=
  requireVault;;
  '(data, salt, password) ← unlockVault;
  value ← fatalErr (ReadPassword "Enter secret value: ");
  let updating := bool_decide (is_Some (map_index (Secrets data) key)) in
  secrets ← liftO (map_assign (Secrets data) key value);
  let data := {| Secrets := secrets |} in
  hold data;;
  fatalErr (vault.Save data password salt);;
  if updating then mret ["Secret '" +:+ key +:+ "' updated"]
  else mret ["Secret '" +:+ key +:+ "' added"].

Definition Get (key : string) : IO (list string) :=
  requireVault;;
  '(data, _, _) ← unlockVault;
  match map_index (Secrets data) key with
  | None => fatal ["Error: secret '" +:+ key +:+ "' not found"]
  | Some value => mret [value]
  end.

Definition List : IO (list string) :=
  requireVault;;
  '(data, _, _) ← unlockVault;
  let keys := map_keys (Secrets data) in
  if decide (length keys = 0) then mret ["No secrets stored"]
  else mret (sort_Strings keys).

Definition Delete (key : string) : IO (list string) :=
  requireVault;;
  '(data, salt, password) ← unlockVault;
  match map_index (Secrets data) key with
  | None => fatal ["Error: secret '" +:+ key +:+ "' not found"]
  | Some _ =>
      let data := {| Secrets := map_delete (Secrets data) key |} in
      hold data;;
      fatalErr (vault.Save data password salt);;
      mret ["Secret '" +:+ key +:+ "' deleted"]
  end.

End Cli.
End cli.

(** ** The failure names of the specification

    The code has no error types, only the message each return site wraps
    its cause in; the specification's names are read off those messages. *)
Inductive failure : Type :=
| EnvironmentUnavailable
| IOError
| EnvelopeCorrupt
| AuthenticationFailed
| VaultAlreadyExists
| VaultNotFound
| RandomnessUnavailable
| SerializationError.

#[global] Instance failure_eq_dec : EqDecision failure.
Proof. solve_decision. Defined.

Definition failure_of (e : error) : option failure :=
  match e with
  | Wrap msg cause =>
      if decide (msg = "failed to get home directory") then Some EnvironmentUnavailable
      else if decide (msg = "failed to read vault file") then
        Some (if os_IsNotExist cause then VaultNotFound else IOError)
      else if decide (msg = "failed to write vault file") then Some IOError
      else if decide (msg = "failed to parse vault file") then Some EnvelopeCorrupt
      else if decide (msg = "failed to decode salt") then Some EnvelopeCorrupt
      else if decide (msg = "failed to decode nonce") then Some EnvelopeCorrupt
      else if decide (msg = "failed to decode data") then Some EnvelopeCorrupt
      else if decide (msg = "failed to parse secrets") then Some EnvelopeCorrupt
      else if decide (msg = "failed to decrypt vault (wrong password?)") then
        Some AuthenticationFailed
      else if decide (msg = "failed to generate salt") then Some RandomnessUnavailable
      else if decide (msg = "failed to encrypt vault") then
        match cause with
        | Wrap "failed to generate nonce" _ => Some RandomnessUnavailable
        | _ => None
        end
      else if decide (msg = "failed to serialize secrets") then Some SerializationError
      else if decide (msg = "failed to serialize vault") then Some SerializationError
      else None
  | _ => None
  end.

(** The error [LoadVault] returns when [gcm.Open] rejects the tag. *)
Definition ErrDecrypt : error :=
  Wrap "failed to decrypt vault (wrong password?)"
    (Wrap "failed to decrypt" (ErrNew "cipher: message authentication failed")).

(** ** What is on disk *)

Section Stored.
Context {L : Lib}.

(** The path of the vault file in [w], when the home directory is known. *)
Definition vault_path (w : World) : option string :=
  (λ h, filepath_Join h VaultFileName) <$> home w.

(** The vault file's content. *)
Definition vault_file (w : World) : option (list byte) :=
  vault_path w ≫= λ path, files w !! path.

(** The envelope the vault file holds, when it parses. *)
Definition stored_envelope (w : World) : option VaultFile :=
  vault_file w ≫= json_Unmarshal_VaultFile.

(** The three byte fields of an envelope, decoded. *)
Definition envelope_fields (v : VaultFile)
  : option (list byte * list byte * list byte) :=
  salt ← base64_DecodeString (Salt v);
  nonce ← base64_DecodeString (Nonce v);
  data ← base64_DecodeString (Data v);
  Some (salt, nonce, data).

End Stored.

(** ** Bit flips *)





(** ** A reference instance of the packages

    One implementation of [Lib], small enough to run inside Rocq: it shows
    that the contracts assumed of the packages can be met together, and it
    is what the examples below are evaluated on.  The codecs are
    length-prefixed, the cipher stores the plaintext twice behind the key
    and the nonce. *)
Module Ref.

(** A natural number in unary: [n] ones, then a zero. *)
Definition put_nat (n : nat) : list byte := replicate n x01 ++ [x00].

Fixpoint get_nat (bs : list byte) : option (nat * list byte) :=
  match bs with
  | x00 :: rest => Some (0, rest)
  | x01 :: rest => '(n, rest') ← get_nat rest; Some (S n, rest')
  | _ => None
  end.

Definition put_string (s : string) : list byte :=
  put_nat (length (bytes_of s)) ++ bytes_of s.

Definition get_string (bs : list byte) : option (string * list byte) :=
  '(n, rest) ← get_nat bs;
  if decide (n ≤ length rest)
  then Some (String.string_of_list_byte (take n rest), drop n rest)
  else None.

Definition put_entry (kv : string * string) : list byte :=
  put_string kv.1 ++ put_string kv.2.

Definition put_entries (l : list (string * string)) : list byte :=
  put_nat (length l) ++ concat (put_entry <$> l).

Fixpoint get_entries (n : nat) (bs : list byte)
  : option (list (string * string) * list byte) :=
  match n with
  | 0 => Some ([], bs)
  | S n' =>
      '(k, r1) ← get_string bs;
      '(v, r2) ← get_string r1;
      '(l, r3) ← get_entries n' r2;
      Some ((k, v) :: l, r3)
  end.

Definition marshal_secrets (d : SecretsData) : option (list byte) :=
  Some match Secrets d with
       | None => [x00]
       | Some t => x01 :: put_entries (map_to_list t)
       end.

Definition unmarshal_secrets (bs : list byte) : option SecretsData :=
  match bs with
  | [x00] => Some {| Secrets := None |}
  | x01 :: rest =>
      '(n, r1) ← get_nat rest;
      '(l, r2) ← get_entries n r1;
      if decide (r2 = []) then Some {| Secrets := Some (list_to_map l) |}
      else None
  | _ => None
  end.

Definition put_Z (z : Z) : list byte :=
  (if decide (z < 0)%Z then x01 else x00) :: put_nat (Z.abs_nat z).

Definition get_Z (bs : list byte) : option (Z * list byte) :=
  match bs with
  | x00 :: rest => '(n, r) ← get_nat rest; Some (Z.of_nat n, r)
  | x01 :: rest => '(n, r) ← get_nat rest; Some ((- Z.of_nat n)%Z, r)
  | _ => None
  end.

Definition marshal_vault (v : VaultFile) : option (list byte) :=
  Some (put_Z (Version v) ++ put_string (Salt v) ++ put_string (Nonce v)
        ++ put_string (Data v)).

Definition unmarshal_vault (bs : list byte) : option VaultFile :=
  '(ver, r1) ← get_Z bs;
  '(salt, r2) ← get_string r1;
  '(nonce, r3) ← get_string r2;
  '(data, r4) ← get_string r3;
  if decide (r4 = []) then Some (mkVaultFile ver salt nonce data) else None.

Definition encode (b : list byte) : string := String.string_of_list_byte b.
Definition decode (s : string) : option (list byte) := Some (bytes_of s).

Definition seal (k n p : list byte) : list byte := k ++ n ++ p ++ p.

Definition open (k n c : list byte) : option (list byte) :=
  let r := drop (length k + length n) c in
  let p := take (length r / 2) r in
  if decide (c = seal k n p) then Some p else None.

Definition kdf (p s : list byte) (t m th n : N) : list byte :=
  take (N.to_nat n) (s ++ p ++ replicate (N.to_nat n) x00).

#[export] Instance lib : Lib := {|
  argon2_IDKey := kdf;
  aead_Seal := seal;
  aead_Open := open;
  base64_EncodeToString := encode;
  base64_DecodeString := decode;
  json_Marshal := marshal_secrets;
  json_MarshalIndent := marshal_vault;
  json_Unmarshal_SecretsData := unmarshal_secrets;
  json_Unmarshal_VaultFile := unmarshal_vault;
|}.

End Ref.

(** ** The decision trees of load and save

    [LoadVault] and [SaveVault] written out as one case analysis each, for
    the proofs: [LoadVault_eq] and [SaveVault_eq] below show that the code
    computes exactly these. *)
Section Outcomes.
Context {L : Lib}.

Definition envelope (salt nonce ciphertext : list byte) : VaultFile := {|
  Version := 1;
  Salt := base64_EncodeToString salt;
  Nonce := base64_EncodeToString nonce;
  Data := base64_EncodeToString ciphertext;
|}.

(** The bytes [SaveVault] hands to [os.WriteFile]: the serialized envelope
    of [data] sealed under the next nonce the random source delivers. *)
Definition new_envelope (data : SecretsData) (password : string)
  (salt : list byte) (w : World) : option (list byte) :=
  plaintext ← json_Marshal data;
  let nonce := take NonceSize (entropy w) in
  json_MarshalIndent
    (envelope salt nonce (aead_Seal (DeriveKey password salt) nonce plaintext)).

Definition open_envelope (password : string) (vault : VaultFile)
  : outcome (SecretsData * list byte) :=
  match base64_DecodeString (Salt vault) with
  | None => Fail (Wrap "failed to decode salt" (ErrNew "encoding/base64"))
  | Some salt =>
  match base64_DecodeString (Nonce vault) with
  | None => Fail (Wrap "failed to decode nonce" (ErrNew "encoding/base64"))
  | Some nonce =>
  match base64_DecodeString (Data vault) with
  | None => Fail (Wrap "failed to decode data" (ErrNew "encoding/base64"))
  | Some ciphertext =>
  match gcm_Open (DeriveKey password salt) nonce ciphertext with
  | Ret plaintext =>
      match json_Unmarshal_SecretsData plaintext with
      | Some secrets => Ret (secrets, salt)
      | None => Fail (Wrap "failed to parse secrets" (ErrNew "encoding/json"))
      end
  | Fail e =>
      Fail (Wrap "failed to decrypt vault (wrong password?)"
              (Wrap "failed to decrypt" e))
  | Panic msg => Panic msg
  | Exit code stderr => Exit code stderr
  end end end end.

Definition load_outcome (password : string) (w : World)
  : outcome (SecretsData * list byte) :=
  match home w with
  | None =>
      Fail (Wrap "failed to get home directory" (ErrNew "$HOME is not defined"))
  | Some h =>
  match files w !! filepath_Join h VaultFileName with
  | None => Fail (Wrap "failed to read vault file" ErrNotExist)
  | Some fileData =>
  match json_Unmarshal_VaultFile fileData with
  | None => Fail (Wrap "failed to parse vault file" (ErrNew "encoding/json"))
  | Some vault => open_envelope password vault
  end end end.

Definition save_outcome (data : SecretsData) (password : string)
  (salt : list byte) (w : World) : outcome unit * World :=
  match home w with
  | None =>
      (Fail (Wrap "failed to get home directory" (ErrNew "$HOME is not defined")),
       w)
  | Some h =>
  match json_Marshal data with
  | None => (Fail (Wrap "failed to serialize secrets" (ErrNew "encoding/json")), w)
  | Some plaintext =>
  if decide (NonceSize ≤ length (entropy w)) then
    let nonce := take NonceSize (entropy w) in
    let w1 := set_entropy (drop NonceSize (entropy w)) w in
    match json_MarshalIndent
            (envelope salt nonce (aead_Seal (DeriveKey password salt) nonce plaintext))
    with
    | None =>
        (Fail (Wrap "failed to serialize vault" (ErrNew "encoding/json")), w1)
    | Some fileData =>
        wrap "failed to write vault file"
          (os_WriteFile (filepath_Join h VaultFileName) fileData) w1
    end
  else
    (Fail (Wrap "failed to encrypt vault"
             (Wrap "failed to generate nonce"
                (ErrNew "crypto/rand: entropy source unavailable"))), w)
  end end.

End Outcomes.

(** ** Worlds to run the program in

    Concrete environments, over the reference instance, for the examples
    that follow the theorems. *)
Module Run.
Import Ref.

Definition home_dir : string := "/home/u".
Definition path : string := filepath_Join home_dir VaultFileName.
Definition password : string := "longpassword1".
Definition salt : list byte := bytes_of "0123456789abcdef".

(** A machine with no vault: 64 random bytes ahead, and a user about to type
    the password twice. *)
Definition w_none : World := {|
  home := Some home_dir;
  files := ∅;
  entropy := bytes_of "0123456789abcdefghijklmnopqrstuvwxyzABCDEFGHIJKLMNOPQRSTUVWXYZ+/";
  fault := NoFault;
  tty := [password; password];
  mem := None;
|}.



(** After [SaveVault] of the mapping with [api_key] alone. *)
Definition secrets1 : SecretsData := {| Secrets := Some {[ "api_key" := "xyz123" ]} |}.
Definition w_saved : World := (SaveVault secrets1 password salt w_none).2.

(** What that save put in the envelope. *)
Definition nonce1 : list byte := take NonceSize (entropy w_none).
Definition data1 : list byte :=
  aead_Seal (DeriveKey password salt) nonce1 (default [] (json_Marshal secrets1)).

(** The saved machine with another envelope in the vault file. *)
Definition w_with (v : VaultFile) : World :=
  set_files (<[path:=default [] (json_MarshalIndent v)]> (files w_saved)) w_saved.


(** A nonce field of three bytes. *)
Definition w_short_nonce : World := w_with (envelope salt (take 3 nonce1) data1).

(** A disk that takes 5 more bytes. *)
Definition w_full : World :=
  mkWorld (home w_saved) (files w_saved) (entropy w_saved) (WriteStops 5)
    (tty w_saved) (mem w_saved).

(** What a second save of the same mapping would write. *)
Definition file1 : list byte :=
  default [] (new_envelope secrets1 password salt w_full).

(** The user about to type the password. *)
Definition w_typing : World := set_tty [password] w_saved.

End Run.

(** * Properties *)

Ltac io_unfold :=
  repeat (progress (unfold mbind, mret, IO_bind, IO_ret, wrap, liftO, decoded,
                      attempt, fatalErr, fatal, hold in *;
                    cbv beta iota zeta in *)).

Section Facts.
Context {L : Lib} {HL : LibSpec L}.

Lemma DeriveKey_length password salt : length (DeriveKey password salt) = 32.
Proof. unfold DeriveKey. by rewrite argon2_IDKey_length. Qed.

Lemma GetVaultPath_eq w :
  GetVaultPath w =
  (match home w with
   | Some h => Ret (filepath_Join h VaultFileName)
   | None =>
       Fail (Wrap "failed to get home directory" (ErrNew "$HOME is not defined"))
   end, w).
Proof. unfold GetVaultPath, os_UserHomeDir. io_unfold. by destruct (home w). Qed.

Lemma aes_NewCipher_key key : length key = 32 → aes_NewCipher key = Ret key.
Proof. intros Hk. unfold aes_NewCipher. case_decide; [done | tauto]. Qed.

Lemma Encrypt_eq plaintext key w :
  length key = 32 →
  Encrypt plaintext key w =
  if decide (NonceSize ≤ length (entropy w))
  then (Ret (take NonceSize (entropy w),
             aead_Seal key (take NonceSize (entropy w)) plaintext),
        set_entropy (drop NonceSize (entropy w)) w)
  else (Fail (Wrap "failed to generate nonce"
                (ErrNew "crypto/rand: entropy source unavailable")), w).
Proof.
  intros Hk. unfold Encrypt, cipher_NewGCM, rand_Read, gcm_Seal. io_unfold.
  rewrite (aes_NewCipher_key _ Hk). by case_decide.
Qed.

Lemma Decrypt_eq ciphertext nonce key w :
  length key = 32 →
  Decrypt ciphertext nonce key w =
  (match gcm_Open key nonce ciphertext with
   | Fail e => Fail (Wrap "failed to decrypt" e)
   | r => r
   end, w).
Proof.
  intros Hk. unfold Decrypt, cipher_NewGCM. io_unfold.
  rewrite (aes_NewCipher_key _ Hk). by destruct (gcm_Open _ _ _).
Qed.

Lemma LoadVault_eq password w :
  LoadVault password w = (load_outcome password w, w).
Proof.
  unfold LoadVault, load_outcome, open_envelope, os_ReadFile.
  pose proof Decrypt_eq as HD. pose proof GetVaultPath_eq as HG.
  io_unfold. rewrite HG.
  destruct (home w) as [h|]; [|done].
  destruct (files w !! _) as [fileData|]; [|done].
  destruct (json_Unmarshal_VaultFile fileData) as [vault|]; [|done].
  destruct (base64_DecodeString (Salt vault)) as [salt|]; [|done].
  destruct (base64_DecodeString (Nonce vault)) as [nonce|]; [|done].
  destruct (base64_DecodeString (Data vault)) as [ciphertext|]; [|done].
  rewrite HD by apply DeriveKey_length.
  destruct (gcm_Open _ _ _) as [plaintext| | |]; try done.
  by destruct (json_Unmarshal_SecretsData plaintext).
Qed.

Lemma SaveVault_eq data password salt w :
  SaveVault data password salt w = save_outcome data password salt w.
Proof.
  unfold SaveVault, save_outcome, envelope.
  pose proof Encrypt_eq as HE. pose proof GetVaultPath_eq as HG.
  io_unfold. rewrite HG.
  destruct (home w) as [h|]; [|done].
  destruct (json_Marshal data) as [plaintext|]; [|done].
  rewrite HE by apply DeriveKey_length.
  case_decide; [|done].
  by destruct (json_MarshalIndent _).
Qed.

End Facts.

(** ** The reference instance meets the contracts *)
Module RefFacts.
Import Ref.

Lemma get_put_nat n rest : get_nat (put_nat n ++ rest) = Some (n, rest).
Proof.
  unfold put_nat. induction n as [|n IH]; simpl; [done|].
  by rewrite IH.
Qed.

Lemma get_put_string s rest : get_string (put_string s ++ rest) = Some (s, rest).
Proof.
  unfold get_string, put_string. rewrite <- app_assoc, get_put_nat. simpl.
  rewrite decide_True by (rewrite length_app; lia).
  rewrite take_app_length, drop_app_length.
  unfold bytes_of. by rewrite String.string_of_list_byte_of_string.
Qed.

Lemma get_put_entries l rest :
  get_entries (length l) (concat (put_entry <$> l) ++ rest) = Some (l, rest).
Proof.
  induction l as [|[k v] l IH]; [done|].
  rewrite fmap_cons. cbn [length concat get_entries]. unfold put_entry at 1.
  cbn [fst snd]. rewrite <- !app_assoc, get_put_string. cbn [mbind option_bind].
  rewrite get_put_string. cbn [mbind option_bind]. by rewrite IH.
Qed.

Lemma unmarshal_marshal_secrets d b :
  marshal_secrets d = Some b → unmarshal_secrets b = Some d.
Proof.
  unfold marshal_secrets. intros [= <-]. destruct d as [[t|]]; [|done].
  cbn [Secrets unmarshal_secrets]. unfold put_entries. rewrite get_put_nat. simpl.
  rewrite <- (app_nil_r (concat _)), get_put_entries. simpl.
  by rewrite list_to_map_to_list.
Qed.

Lemma get_put_Z z rest : get_Z (put_Z z ++ rest) = Some (z, rest).
Proof.
  unfold put_Z, get_Z. case_decide; simpl; rewrite get_put_nat; simpl;
    do 2 f_equal; lia.
Qed.

Lemma unmarshal_marshal_vault v b :
  marshal_vault v = Some b → unmarshal_vault b = Some v.
Proof.
  unfold marshal_vault, unmarshal_vault. intros Hm.
  assert (b = put_Z (Version v) ++ put_string (Salt v) ++ put_string (Nonce v)
              ++ put_string (Data v)) as -> by congruence.
  rewrite <- (app_nil_r (put_string (Data v))).
  rewrite get_put_Z. cbn [mbind option_bind].
  do 3 (rewrite get_put_string; cbn [mbind option_bind]).
  rewrite decide_True by done. by destruct v.
Qed.

Lemma kdf_length p s t m th n : length (kdf p s t m th n) = N.to_nat n.
Proof.
  unfold kdf. rewrite length_take, !length_app, length_replicate. lia.
Qed.

Lemma open_seal k n p : open k n (seal k n p) = Some p.
Proof.
  unfold open. 
  assert (take (length (drop (length k + length n) (seal k n p)) / 2)
            (drop (length k + length n) (seal k n p)) = p) as ->.
  { unfold seal. rewrite app_assoc, drop_app_length' by (rewrite length_app; lia).
    rewrite length_app. replace ((length p + length p) / 2) with (length p).
    - apply take_app_length.
    - symmetry. replace (length p + length p) with (length p * 2) by lia. apply Nat.div_mul. lia. }
  by rewrite decide_True.
Qed.

Lemma open_sealed k n c p : open k n c = Some p → c = seal k n p.
Proof. unfold open. case_decide; [|done]. by intros [= <-]. Qed.

Lemma seal_binds k n p k' n' p' :
  length k = length k' → length n = length n' →
  seal k n p = seal k' n' p' → k = k' ∧ n = n'.
Proof.
  unfold seal. intros Hk Hn Heq.
  apply app_inj_1 in Heq as [-> Heq]; [|done].
  by apply app_inj_1 in Heq as [-> _].
Qed.

(** Two lists that differ in one place agree everywhere else. *)
Lemma lookup_middle_ne {A} (l1 l2 : list A) b b' i :
  i ≠ length l1 → (l1 ++ b :: l2) !! i = (l1 ++ b' :: l2) !! i.
Proof.
  intros Hi. destruct (decide (i < length l1)).
  - by rewrite !lookup_app_l.
  - rewrite !lookup_app_r by lia.
    destruct (i - length l1) eqn:E; [lia | done].
Qed.

Lemma seal_tamper k n p p' l1 b b' l2 :
  seal k n p = l1 ++ b :: l2 → b ≠ b' → seal k n p' ≠ l1 ++ b' :: l2.
Proof.
  unfold seal. intros Hc Hb Hc'.
  assert (length p = length p') as Hlen.
  { apply (f_equal length) in Hc, Hc'. rewrite !length_app in Hc, Hc'.
    simpl in *. lia. }
  assert (∀ i, i ≠ length l1 →
    (k ++ n ++ p ++ p) !! i = (k ++ n ++ p' ++ p') !! i) as Hagree.
  { intros i Hi. rewrite Hc, Hc'. by apply lookup_middle_ne. }
  assert ((k ++ n ++ p ++ p) !! length l1 = Some b) as Hat.
  { rewrite Hc. by rewrite list_lookup_middle. }
  assert ((k ++ n ++ p' ++ p') !! length l1 = Some b') as Hat'.
  { rewrite Hc'. by rewrite list_lookup_middle. }
  set (m := length k + length n).
  assert (∀ q : list byte, ∀ j, (k ++ n ++ q) !! (m + j) = q !! j) as Hq.
  { intros q j. rewrite app_assoc, lookup_app_r by (rewrite length_app; lia).
    f_equal. rewrite length_app. lia. }
  assert (∀ q : list byte, ∀ j, j < m → (k ++ n ++ q) !! j = (k ++ n) !! j) as Hpre.
  { intros q j Hj. rewrite app_assoc, lookup_app_l; [done|]. rewrite length_app. lia. }
  assert (∀ q : list byte, ∀ j, (q ++ q) !! (length q + j) = q !! j) as Hhi.
  { intros q j. rewrite lookup_app_r by lia. f_equal. lia. }
  destruct (decide (length l1 < m)) as [Hlt|Hge].
  - rewrite Hpre in Hat, Hat' by done. congruence.
  - replace (length l1) with (m + (length l1 - m)) in Hat, Hat' by lia.
    rewrite Hq in Hat, Hat'.
    set (j := length l1 - m) in *.
    destruct (decide (j < length p)) as [Hj|Hj].
    + rewrite lookup_app_l in Hat, Hat' by lia.
      specialize (Hagree (m + (length p + j))). rewrite !Hq, Hhi in Hagree.
      rewrite Hlen, Hhi, Hat, Hat' in Hagree.
      assert (Some b = Some b') as [= ?]; [apply Hagree; lia | done].
    + assert (j - length p < length p) as Hj'.
      { apply lookup_lt_Some in Hat. rewrite length_app in Hat. lia. }
      replace j with (length p + (j - length p)) in Hat by lia.
      replace j with (length p' + (j - length p)) in Hat' by lia.
      rewrite Hhi in Hat, Hat'.
      specialize (Hagree (m + (j - length p))). rewrite !Hq in Hagree.
      rewrite !lookup_app_l in Hagree by lia.
      rewrite Hat, Hat' in Hagree.
      assert (Some b = Some b') as [= ?]; [apply Hagree; lia | done].
Qed.

#[export] Instance lib_spec : LibSpec lib.
Proof.
  split; simpl.
  - apply kdf_length.
  - intros. apply open_seal.
  - intros b. unfold decode, encode, bytes_of.
    by rewrite String.list_byte_of_string_of_list_byte.
  - by eexists.
  - by eexists.
  - apply unmarshal_marshal_secrets.
  - apply unmarshal_marshal_vault.
Qed.

#[export] Instance lib_ideal : IdealAEAD lib.
Proof.
  split; simpl.
  - intros. by apply open_sealed.
  - intros k n p k' n' p' Hk Hk' Hn Hn'. apply seal_binds; congruence.
  - intros. by eapply seal_tamper.
Qed.
End RefFacts.

(** ** Bit flips change exactly one byte *)





(** ** The vault store *)

Section Store.
Context {L : Lib} {HL : LibSpec L}.

Lemma stored_envelope_Some w v :
  stored_envelope w = Some v ↔
  ∃ h fileData, home w = Some h ∧
    files w !! filepath_Join h VaultFileName = Some fileData ∧
    json_Unmarshal_VaultFile fileData = Some v.
Proof.
  unfold stored_envelope, vault_file, vault_path. split.
  - destruct (home w) as [h|]; [|done]. simpl.
    destruct (files w !! _) as [fileData|] eqn:Hf; [|done]. simpl. eauto.
  - intros (h & fileData & -> & Hf & Hv). simpl. by rewrite Hf.
Qed.

Lemma load_outcome_stored password w v :
  stored_envelope w = Some v → load_outcome password w = open_envelope password v.
Proof.
  intros (h & fileData & Hh & Hf & Hv)%stored_envelope_Some.
  unfold load_outcome. by rewrite Hh, Hf, Hv.
Qed.

Lemma envelope_fields_envelope salt nonce ciphertext :
  envelope_fields (envelope salt nonce ciphertext) = Some (salt, nonce, ciphertext).
Proof. unfold envelope_fields, envelope. simpl. by rewrite !base64_Decode_Encode. Qed.

Lemma open_envelope_fields password v salt nonce ciphertext :
  envelope_fields v = Some (salt, nonce, ciphertext) →
  open_envelope password v =
  match gcm_Open (DeriveKey password salt) nonce ciphertext with
  | Ret plaintext =>
      match json_Unmarshal_SecretsData plaintext with
      | Some secrets => Ret (secrets, salt)
      | None => Fail (Wrap "failed to parse secrets" (ErrNew "encoding/json"))
      end
  | Fail e =>
      Fail (Wrap "failed to decrypt vault (wrong password?)"
              (Wrap "failed to decrypt" e))
  | Panic msg => Panic msg
  | Exit code stderr => Exit code stderr
  end.
Proof.
  unfold envelope_fields, open_envelope.
  destruct (base64_DecodeString (Salt v)); [|done].
  destruct (base64_DecodeString (Nonce v)); [|done].
  destruct (base64_DecodeString (Data v)); [|done].
  simpl. by intros [= -> -> ->].
Qed.

(** What a successful save leaves behind. *)
Lemma SaveVault_Ret_inv data password salt w w' :
  SaveVault data password salt w = (Ret (), w') →
  ∃ h plaintext fileData,
    let nonce := take NonceSize (entropy w) in
    let v := envelope salt nonce (aead_Seal (DeriveKey password salt) nonce plaintext) in
    home w = Some h ∧
    json_Marshal data = Some plaintext ∧
    NonceSize ≤ length (entropy w) ∧
    json_MarshalIndent v = Some fileData ∧
    w' = set_files (<[filepath_Join h VaultFileName := fileData]> (files w))
           (set_entropy (drop NonceSize (entropy w)) w) ∧
    stored_envelope w' = Some v.
Proof.
  rewrite SaveVault_eq. unfold save_outcome.
  destruct (home w) as [h|] eqn:Hh; [|done].
  destruct (json_Marshal data) as [plaintext|]; [|done].
  case_decide as Hn; [|done]. cbv zeta.
  destruct (json_MarshalIndent _) as [fileData|] eqn:Hv; [|done].
  intros Hw. exists h, plaintext, fileData. cbv zeta.
  assert (w' = set_files (<[filepath_Join h VaultFileName := fileData]> (files w))
           (set_entropy (drop NonceSize (entropy w)) w)) as ->.
  { unfold wrap, os_WriteFile in Hw. simpl in Hw.
    destruct (fault w); [by simplify_eq | done |].
    case_decide; [done | by simplify_eq]. }
  split_and!; try done.
  apply stored_envelope_Some. exists h, fileData. simpl.
  rewrite lookup_insert_eq. split_and!; try done.
  by apply json_Unmarshal_MarshalIndent.
Qed.

(** When the environment lets it, the save goes through. *)
Lemma SaveVault_Ret data password salt w h :
  home w = Some h → NonceSize ≤ length (entropy w) → fault w = NoFault →
  ∃ w', SaveVault data password salt w = (Ret (), w').
Proof.
  intros Hh Hn Hf. rewrite SaveVault_eq. unfold save_outcome. rewrite Hh.
  destruct (json_Marshal_total data) as [plaintext ->].
  rewrite decide_True by done. cbv zeta.
  match goal with |- context [json_MarshalIndent ?v] =>
    destruct (json_MarshalIndent_total v) as [fileData ->] end.
  unfold wrap, os_WriteFile. simpl. rewrite Hf. eauto.
Qed.

Lemma gcm_Open_Seal key nonce plaintext :
  length key = 32 → length nonce = NonceSize →
  gcm_Open key nonce (aead_Seal key nonce plaintext) = Ret plaintext.
Proof.
  intros Hk Hn. unfold gcm_Open. rewrite decide_True by done.
  by rewrite aead_Open_Seal.
Qed.

Lemma LoadVault_after_SaveVault data password salt w w' :
  SaveVault data password salt w = (Ret (), w') →
  LoadVault password w' = (Ret (data, salt), w').
Proof.
  intros (h & plaintext & fileData & Hh & Hp & Hn & Hv & -> & Hs)%SaveVault_Ret_inv.
  rewrite LoadVault_eq. f_equal.
  rewrite (load_outcome_stored _ _ _ Hs).
  rewrite (open_envelope_fields _ _ _ _ _ (envelope_fields_envelope _ _ _)).
  rewrite gcm_Open_Seal;
    [| apply DeriveKey_length | by apply length_take_le].
  by rewrite (json_Unmarshal_Marshal _ _ Hp).
Qed.

(** C5.  [DeriveKey] is Argon2id ([argon2.IDKey]) at time cost 1, memory
    cost 64 * 1024 KiB = 64 MiB and 4 lanes, asked for 32 bytes; the key it
    returns has exactly 32 bytes; and it is a function of the password and
    the salt alone, so equal inputs give equal keys. *)
Theorem DeriveKey_argon2id password salt :
  DeriveKey password salt
    = argon2_IDKey (bytes_of password) salt 1 (64 * 1024) 4 32
  ∧ length (DeriveKey password salt) = 32
  ∧ ∀ password' salt', password' = password → salt' = salt →
      DeriveKey password' salt' = DeriveKey password salt.
Proof.
  split_and!.
  - reflexivity.
  - apply DeriveKey_length.
  - by intros ?? -> ->.
Qed.



(** C10.  [LoadVault] is not total: on a vault file that parses, whose
    three fields decode, and whose nonce field decodes to a byte string of a
    length other than 12, it ends in the panic of [gcm.Open], not in an
    error. *)
Theorem LoadVault_nonce_length_panic password w v salt nonce ciphertext :
  stored_envelope w = Some v →
  envelope_fields v = Some (salt, nonce, ciphertext) →
  length nonce ≠ NonceSize →
  LoadVault password w
    = (Panic "crypto/cipher: incorrect nonce length given to GCM", w).
Proof.
  intros Hs Hf Hlen. rewrite LoadVault_eq. f_equal.
  rewrite (load_outcome_stored _ _ _ Hs), (open_envelope_fields _ _ _ _ _ Hf).
  unfold gcm_Open. by rewrite decide_False.
Qed.

Context {HI : IdealAEAD L}.



Lemma failure_of_ErrDecrypt : failure_of ErrDecrypt = Some AuthenticationFailed.
Proof. reflexivity. Qed.



(** C2, as the code has it.  [SaveVault] writes with [os.WriteFile] straight
    onto the vault path; there is no temporary file and no rename.  When it
    succeeds the file holds the new envelope (which loads back).  When it
    fails before the write (home directory, serialization, encryption) or
    the file cannot be opened, no file has changed.  When the write stops
    part-way, and only then, the call fails and leaves the vault file
    holding the bytes written so far, a proper prefix of the new envelope.
    It never panics or exits. *)
Theorem SaveVault_write_in_place data password salt w r w' :
  SaveVault data password salt w = (r, w') →
  match r with
  | Ret _ =>
      ∃ h fileData, home w = Some h
        ∧ new_envelope data password salt w = Some fileData
        ∧ files w' = <[filepath_Join h VaultFileName := fileData]> (files w)
        ∧ LoadVault password w' = (Ret (data, salt), w')
  | Fail e =>
      files w' = files w
      ∨ ∃ h fileData k, home w = Some h
          ∧ new_envelope data password salt w = Some fileData
          ∧ fault w = WriteStops k ∧ k < length fileData
          ∧ files w' = <[filepath_Join h VaultFileName := take k fileData]> (files w)
          ∧ e = Wrap "failed to write vault file"
                  (ErrNew "write: no space left on device")
  | Panic _ | Exit _ _ => False
  end
  ∧ ∀ h fileData k,
      home w = Some h → NonceSize ≤ length (entropy w) →
      new_envelope data password salt w = Some fileData →
      fault w = WriteStops k → k < length fileData →
      r = Fail (Wrap "failed to write vault file"
                  (ErrNew "write: no space left on device"))
      ∧ files w' = <[filepath_Join h VaultFileName := take k fileData]> (files w).
Proof.
  intros Hsave. split.
  - destruct r as [[]|e|msg|code printed].
    + pose proof (LoadVault_after_SaveVault _ _ _ _ _ Hsave) as Hload.
      apply SaveVault_Ret_inv in Hsave
        as (h & plaintext & fileData & Hh & Hp & _ & Hv & -> & _).
      exists h, fileData. unfold new_envelope. rewrite Hp. by split_and!.
    + rewrite SaveVault_eq in Hsave. unfold save_outcome in Hsave.
      unfold new_envelope.
      destruct (home w) as [h|]; [|left; by simplify_eq].
      destruct (json_Marshal data) as [plaintext|]; [|left; by simplify_eq].
      case_decide; [|left; by simplify_eq]. cbv zeta in Hsave.
      destruct (json_MarshalIndent _) as [fileData|] eqn:Hv;
        [|left; by simplify_eq].
      unfold wrap, os_WriteFile in Hsave. simpl in Hsave.
      destruct (fault w) as [| |k] eqn:Hfault; [done | left; by simplify_eq |].
      case_decide; [|done]. right. exists h, fileData, k. by simplify_eq.
    + rewrite SaveVault_eq in Hsave. unfold save_outcome in Hsave.
      repeat case_match; simplify_eq.
      all: unfold wrap, os_WriteFile in *; simpl in *;
        repeat case_match; simplify_eq.
    + rewrite SaveVault_eq in Hsave. unfold save_outcome in Hsave.
      repeat case_match; simplify_eq.
      all: unfold wrap, os_WriteFile in *; simpl in *;
        repeat case_match; simplify_eq.
  - intros h fileData k Hh Hn Hnew Hfault Hk.
    rewrite SaveVault_eq in Hsave. unfold save_outcome in Hsave.
    unfold new_envelope in Hnew. rewrite Hh in Hsave.
    destruct (json_Marshal data) as [plaintext|]; [|done].
    rewrite decide_True in Hsave by done. cbv zeta in Hsave, Hnew.
    simpl in Hnew. rewrite Hnew in Hsave.
    unfold wrap, os_WriteFile in Hsave. simpl in Hsave.
    rewrite Hfault, decide_True in Hsave by done. by simplify_eq.
Qed.

Lemma VaultExists_eq w :
  VaultExists w =
  (match home w with
   | Some h => Ret (bool_decide (is_Some (files w !! filepath_Join h VaultFileName)))
   | None =>
       Fail (Wrap "failed to get home directory" (ErrNew "$HOME is not defined"))
   end, w).
Proof.
  unfold VaultExists, os_Stat. pose proof GetVaultPath_eq as HG.
  io_unfold. rewrite HG. destruct (home w) as [h|]; [|done].
  by destruct (files w !! _).
Qed.

Lemma GenerateSalt_eq w :
  GenerateSalt w =
  if decide (SaltSize ≤ length (entropy w))
  then (Ret (take SaltSize (entropy w)), set_entropy (drop SaltSize (entropy w)) w)
  else (Fail (Wrap "failed to generate salt"
                (ErrNew "crypto/rand: entropy source unavailable")), w).
Proof. unfold GenerateSalt, rand_Read. io_unfold. by case_decide. Qed.

Lemma CreateVault_eq password w :
  CreateVault password w =
  if decide (SaltSize ≤ length (entropy w))
  then SaveVault {| Secrets := map_make |} password (take SaltSize (entropy w))
         (set_entropy (drop SaltSize (entropy w)) w)
  else (Fail (Wrap "failed to generate salt"
                (ErrNew "crypto/rand: entropy source unavailable")), w).
Proof.
  unfold CreateVault. pose proof GenerateSalt_eq as HG. io_unfold. rewrite HG.
  by case_decide.
Qed.

Lemma failure_of_save e data password salt w w' :
  SaveVault data password salt w = (Fail e, w') →
  failure_of e ≠ Some VaultAlreadyExists.
Proof.
  rewrite SaveVault_eq. unfold save_outcome, wrap, os_WriteFile. intros Hsave.
  repeat case_match; simplify_eq; done.
Qed.

(** C1, as the code has it.  The check for an existing vault is made by the
    command, not by the store.  When a vault file exists, [cmdInit] exits
    with status 1 and the message that the vault already exists, before it
    reads a password, and changes nothing.  [CreateVault] itself makes no
    check: whenever the environment lets the save go through it succeeds,
    whatever is at the vault path; after it the path holds the envelope of
    the empty mapping under a fresh salt; and none of its errors is
    VaultAlreadyExists. *)
Theorem cmdInit_guards_CreateVault password w :
  (∀ h old, home w = Some h →
     files w !! filepath_Join h VaultFileName = Some old →
     cmdInit w = (Exit 1 ["Error: vault already exists";
                          "Delete ~/.secrets-vault.json to create a new vault"], w))
  ∧ (∀ h, home w = Some h → SaltSize + NonceSize ≤ length (entropy w) →
       fault w = NoFault → ∃ w', CreateVault password w = (Ret (), w'))
  ∧ (∀ w', CreateVault password w = (Ret (), w') →
       ∃ h fileData, home w = Some h
         ∧ files w' = <[filepath_Join h VaultFileName := fileData]> (files w)
         ∧ LoadVault password w'
             = (Ret ({| Secrets := map_make |}, take SaltSize (entropy w)), w'))
  ∧ (∀ e w', CreateVault password w = (Fail e, w') →
       failure_of e ≠ Some VaultAlreadyExists).
Proof.
  split_and!.
  - intros h old Hh Hold. unfold cmdInit. pose proof VaultExists_eq as HV.
    io_unfold. rewrite HV, Hh, Hold. by rewrite bool_decide_true.
  - intros h Hh Hn Hf. rewrite CreateVault_eq.
    rewrite decide_True by (unfold SaltSize, NonceSize in *; lia).
    apply (SaveVault_Ret _ _ _ _ h); try done.
    simpl. rewrite length_drop. unfold SaltSize, NonceSize in *. lia.
  - intros w' Hc. rewrite CreateVault_eq in Hc. case_decide; [|done].
    pose proof (LoadVault_after_SaveVault _ _ _ _ _ Hc) as Hload.
    apply SaveVault_Ret_inv in Hc
      as (h & plaintext & fileData & Hh & _ & _ & _ & -> & _).
    by exists h, fileData.
  - intros e w' Hc. rewrite CreateVault_eq in Hc. case_decide.
    + by eapply failure_of_save.
    + by simplify_eq.
Qed.
End Store.

(** ** The commands *)

Section Cmd.
Context {L : Lib} {HL : LibSpec L}.

Lemma readPassword_eq prompt w :
  readPassword prompt w =
  match tty w with
  | line :: rest => (Ret line, set_tty rest w)
  | [] => (Fail (Wrap "failed to read password" (ErrNew "EOF")), w)
  end.
Proof. unfold readPassword, term_ReadPassword. io_unfold. by destruct (tty w). Qed.

(** [load_outcome] reads the home directory and the files only. *)
Lemma load_outcome_frame password w1 w2 :
  home w1 = home w2 → files w1 = files w2 →
  load_outcome password w1 = load_outcome password w2.
Proof. unfold load_outcome. by intros -> ->. Qed.

(** A vault that loads exists. *)
Lemma load_outcome_exists password w r :
  load_outcome password w = Ret r →
  ∃ h, home w = Some h ∧ is_Some (files w !! filepath_Join h VaultFileName).
Proof.
  unfold load_outcome. destruct (home w) as [h|]; [|done].
  destruct (files w !! _) eqn:Hf; [|done]. eauto.
Qed.

(** The commands of [internal/cli] are the commands of [main.go]. *)
Lemma cli_Delete_eq key w : cli.Delete key w = cmdDelete key w.
Proof.
  unfold cli.Delete, cmdDelete, cli.requireVault, cli.unlockVault,
    cli.ReadPassword, readPassword, vault.Exists, vault.Load, vault.Save.
  io_unfold.
  destruct (VaultExists w) as [[[]| | |] w1]; cbn [negb]; io_unfold; try done.
  destruct (term_ReadPassword w1) as [[password| | |] w2]; io_unfold; try done.
  destruct (LoadVault password w2) as [[[data salt]| | |] w3]; io_unfold; try done.
Qed.

Lemma cli_Set_eq key w : cli.Set_ key w = cmdSet key w.
Proof.
  unfold cli.Set_, cmdSet, cli.requireVault, cli.unlockVault,
    cli.ReadPassword, readPassword, vault.Exists, vault.Load, vault.Save.
  io_unfold.
  destruct (VaultExists w) as [[[]| | |] w1]; cbn [negb]; io_unfold; try done.
  destruct (term_ReadPassword w1) as [[password| | |] w2]; io_unfold; try done.
  destruct (LoadVault password w2) as [[[data salt]| | |] w3]; io_unfold; try done.
Qed.

(** C8.  Deleting a key the vault does not hold.  The vault unlocks with the
    password typed (the load succeeds and returns [data]) and [key] is not
    in the mapping: [cmdDelete] (and [cli.Delete], the same command) exits
    with status 1 and the not-found message.  The mapping it holds in memory
    is the one loaded, no file has changed, and no random bytes were drawn:
    no save was made. *)
Theorem cmdDelete_missing_key key password rest data salt w :
  tty w = password :: rest →
  LoadVault password w = (Ret (data, salt), w) →
  map_index (Secrets data) key = None →
  ∃ w', cmdDelete key w = (Exit 1 ["Error: secret '" +:+ key +:+ "' not found"], w')
      ∧ cli.Delete key w = cmdDelete key w
      ∧ mem w' = Some data
      ∧ files w' = files w
      ∧ entropy w' = entropy w.
Proof.
  intros Htty Hload Hkey. rewrite LoadVault_eq in Hload.
  injection Hload as Hload.
  destruct (load_outcome_exists _ _ _ Hload) as (h & Hh & Hex).
  exists (set_mem (Some data) (set_tty rest w)).
  split_and!; [|apply cli_Delete_eq|done..].
  unfold cmdDelete.
  pose proof VaultExists_eq as HV. pose proof readPassword_eq as HR.
  pose proof LoadVault_eq as HLd.
  io_unfold. rewrite HV, Hh, bool_decide_true by done. simpl.
  rewrite HR, Htty, HLd.
  rewrite (load_outcome_frame password (set_tty rest w) w) by done.
  rewrite Hload. simpl. by rewrite Hkey.
Qed.

End Cmd.

(** ** The theorems at work

    Each theorem above that has hypotheses is applied here to a concrete
    world over the reference instance, and what the specification says but
    the code does not do is evaluated on one. *)
Module Examples.
Import Ref RefFacts.


Lemma w_saved_eq :
  SaveVault Run.secrets1 Run.password Run.salt Run.w_none = (Ret (), Run.w_saved).
Proof. vm_compute. reflexivity. Qed.

Lemma w_saved_loads :
  LoadVault Run.password Run.w_typing
    = (Ret (Run.secrets1, Run.salt), Run.w_typing).
Proof. vm_compute. reflexivity. Qed.

Lemma DeriveKey_argon2id_witness :
  length (DeriveKey Run.password Run.salt) = 32.
Proof.
  exact (proj1 (proj2 (DeriveKey_argon2id Run.password Run.salt))).
Defined.





Lemma LoadVault_nonce_length_panic_witness :
  LoadVault Run.password Run.w_short_nonce
    = (Panic "crypto/cipher: incorrect nonce length given to GCM",
       Run.w_short_nonce).
Proof.
  apply (LoadVault_nonce_length_panic Run.password Run.w_short_nonce
           (envelope Run.salt (take 3 Run.nonce1) Run.data1)
           Run.salt (take 3 Run.nonce1) Run.data1).
  - vm_compute. reflexivity.
  - vm_compute. reflexivity.
  - replace (length (take 3 Run.nonce1)) with 3 by (vm_compute; reflexivity).
    unfold NonceSize. lia.
Defined.

Lemma cmdDelete_missing_key_witness :
  ∃ w', cmdDelete "db_password" Run.w_typing
          = (Exit 1 ["Error: secret '" +:+ "db_password" +:+ "' not found"], w')
      ∧ cli.Delete "db_password" Run.w_typing = cmdDelete "db_password" Run.w_typing
      ∧ mem w' = Some Run.secrets1
      ∧ files w' = files Run.w_typing
      ∧ entropy w' = entropy Run.w_typing.
Proof.
  apply (cmdDelete_missing_key "db_password" Run.password [] Run.secrets1 Run.salt).
  - reflexivity.
  - exact w_saved_loads.
  - vm_compute. reflexivity.
Defined.



Lemma cmdInit_guards_CreateVault_witness :
  cmdInit Run.w_saved
    = (Exit 1 ["Error: vault already exists";
               "Delete ~/.secrets-vault.json to create a new vault"], Run.w_saved)
  ∧ ∃ w', CreateVault Run.password Run.w_saved = (Ret (), w').
Proof.
  destruct (cmdInit_guards_CreateVault Run.password Run.w_saved)
    as (Hinit & Hcreate & _ & _).
  split.
  - apply (Hinit Run.home_dir (default [] (files Run.w_saved !! Run.path))).
    + reflexivity.
    + vm_compute. reflexivity.
  - apply (Hcreate Run.home_dir).
    + reflexivity.
    + replace (length (entropy Run.w_saved)) with 52 by (vm_compute; reflexivity).
      unfold SaltSize, NonceSize. lia.
    + reflexivity.
Defined.

(** C1 fails on the code: with a vault file at the path, [CreateVault]
    returns no error and the file no longer has its content. *)
Lemma CreateVault_overwrites :
  is_Some (files Run.w_saved !! Run.path)
  ∧ (CreateVault Run.password Run.w_saved).1 = Ret ()
  ∧ files (CreateVault Run.password Run.w_saved).2 !! Run.path
      ≠ files Run.w_saved !! Run.path.
Proof.
  split_and!.
  - vm_compute. eauto.
  - vm_compute. reflexivity.
  - vm_compute. discriminate.
Qed.

Lemma SaveVault_write_in_place_witness :
  (SaveVault Run.secrets1 Run.password Run.salt Run.w_full).1
    = Fail (Wrap "failed to write vault file"
              (ErrNew "write: no space left on device"))
  ∧ files (SaveVault Run.secrets1 Run.password Run.salt Run.w_full).2
      = <[Run.path := take 5 Run.file1]> (files Run.w_full).
Proof.
  apply (proj2 (SaveVault_write_in_place Run.secrets1 Run.password Run.salt
                  Run.w_full _ _ (surjective_pairing _)) Run.home_dir).
  - reflexivity.
  - replace (length (entropy Run.w_full)) with 52 by (vm_compute; reflexivity).
    unfold NonceSize. lia.
  - vm_compute. reflexivity.
  - reflexivity.
  - replace (length Run.file1) with 274 by (vm_compute; reflexivity). lia.
Defined.

(** C2 fails on the code: the disk fills up after 5 bytes, [SaveVault]
    returns an error, and the vault file, which loaded before, is left with
    the first 5 bytes of the new envelope and no longer parses. *)
Lemma SaveVault_partial_write :
  LoadVault Run.password Run.w_full = (Ret (Run.secrets1, Run.salt), Run.w_full)
  ∧ (SaveVault Run.secrets1 Run.password Run.salt Run.w_full).1
      = Fail (Wrap "failed to write vault file"
                (ErrNew "write: no space left on device"))
  ∧ files (SaveVault Run.secrets1 Run.password Run.salt Run.w_full).2 !! Run.path
      ≠ files Run.w_full !! Run.path
  ∧ length <$> files (SaveVault Run.secrets1 Run.password Run.salt Run.w_full).2
                 !! Run.path = Some 5
  ∧ (LoadVault Run.password
       (SaveVault Run.secrets1 Run.password Run.salt Run.w_full).2).1
      = Fail (Wrap "failed to parse vault file" (ErrNew "encoding/json")).
Proof.
  split_and!.
  - vm_compute. reflexivity.
  - vm_compute. reflexivity.
  - vm_compute. discriminate.
  - vm_compute. reflexivity.
  - vm_compute. reflexivity.
Qed.

End Examples.

(** * More of the code *)

(** ** crypto.go and vault.go *)

Section StoreMore.
Context {L : Lib}.

(** X1.  [LoadVault] only reads: whatever it returns (a mapping, an error or
    a panic), the world after it is the world before it: no file written,
    no random byte drawn, nothing taken from the terminal. *)
Theorem LoadVault_reads_only password w : (LoadVault password w).2 = w.
Proof.
  unfold LoadVault, Decrypt, GetVaultPath, os_UserHomeDir, os_ReadFile,
    cipher_NewGCM.
  io_unfold.
  repeat (case_match; simplify_eq; io_unfold; try done).
Qed.

(** X5.  A key that is not of 16, 24 or 32 bytes is refused by [Encrypt] and
    by [Decrypt] alike with the cipher-creation error, before any random
    byte is drawn.  With a good key and fewer than 12 random bytes to be
    had, [Encrypt] fails with the nonce-generation error and takes none. *)
Theorem Encrypt_failures plaintext ciphertext nonce key w :
  (¬ (length key = 16 ∨ length key = 24 ∨ length key = 32) →
     Encrypt plaintext key w
       = (Fail (Wrap "failed to create cipher"
                  (ErrNew "crypto/aes: invalid key size")), w)
     ∧ Decrypt ciphertext nonce key w
       = (Fail (Wrap "failed to create cipher"
                  (ErrNew "crypto/aes: invalid key size")), w))
  ∧ (length key = 16 ∨ length key = 24 ∨ length key = 32 →
     length (entropy w) < NonceSize →
     Encrypt plaintext key w
       = (Fail (Wrap "failed to generate nonce"
                  (ErrNew "crypto/rand: entropy source unavailable")), w)).
Proof.
  split.
  - intros Hk. unfold Encrypt, Decrypt, aes_NewCipher. io_unfold.
    by rewrite decide_False.
  - intros Hk Hn. unfold Encrypt, aes_NewCipher, cipher_NewGCM, rand_Read.
    io_unfold. rewrite decide_True by done. io_unfold.
    rewrite decide_False by lia. done.
Qed.

(** X6.  [GenerateSalt] returns exactly the next 16 bytes of the random
    source and leaves the rest for later reads, touching no file; when fewer
    than 16 bytes are to be had it fails and takes none. *)
Theorem GenerateSalt_fresh w :
  (SaltSize ≤ length (entropy w) →
     ∃ salt w', GenerateSalt w = (Ret salt, w')
       ∧ length salt = 16
       ∧ entropy w = salt ++ entropy w'
       ∧ files w' = files w)
  ∧ (length (entropy w) < SaltSize →
     GenerateSalt w
       = (Fail (Wrap "failed to generate salt"
                  (ErrNew "crypto/rand: entropy source unavailable")), w)).
Proof.
  unfold GenerateSalt, rand_Read. io_unfold. split.
  - intros Hn. rewrite decide_True by done.
    eexists _, _. split_and!; [done | by apply length_take_le | | done].
    simpl. by rewrite take_drop.
  - intros Hn. by rewrite decide_False by lia.
Qed.

Context {HL : LibSpec L}.

(** X4.  [Encrypt] under a 32-byte key draws a 12-byte nonce, the next 12
    bytes of the random source, and [Decrypt] of its ciphertext with that
    nonce and key gives the plaintext back; neither touches a file. *)
Theorem Decrypt_Encrypt plaintext key w :
  length key = 32 → NonceSize ≤ length (entropy w) →
  ∃ nonce ciphertext w',
    Encrypt plaintext key w = (Ret (nonce, ciphertext), w')
    ∧ length nonce = 12
    ∧ entropy w = nonce ++ entropy w'
    ∧ files w' = files w
    ∧ Decrypt ciphertext nonce key w' = (Ret plaintext, w').
Proof.
  intros Hk Hn. rewrite Encrypt_eq, decide_True by done.
  eexists _, _, _. split_and!; [done | by apply length_take_le | | done |].
  - simpl. by rewrite take_drop.
  - rewrite Decrypt_eq by done.
    rewrite gcm_Open_Seal; [done | done | by apply length_take_le].
Qed.

(** X2.  Every way [LoadVault] can end.  It returns a mapping only from a
    vault file that parses, whose fields decode, whose nonce has 12 bytes
    and whose ciphertext authenticates under the key derived from the
    password and the stored salt; the salt it returns is the stored one.
    Its errors are the eight it wraps.  It panics only with the message of
    [gcm.Open], and only when the nonce field decodes to other than 12
    bytes.  It never exits the process. *)
Theorem LoadVault_outcomes password w o w' :
  LoadVault password w = (o, w') →
  match o with
  | Ret (data, salt) =>
      ∃ v nonce ciphertext plaintext,
        stored_envelope w = Some v
        ∧ envelope_fields v = Some (salt, nonce, ciphertext)
        ∧ length nonce = NonceSize
        ∧ aead_Open (DeriveKey password salt) nonce ciphertext = Some plaintext
        ∧ json_Unmarshal_SecretsData plaintext = Some data
  | Fail e =>
      ∃ msg cause, e = Wrap msg cause
        ∧ msg ∈ ["failed to get home directory"; "failed to read vault file";
                 "failed to parse vault file"; "failed to decode salt";
                 "failed to decode nonce"; "failed to decode data";
                 "failed to decrypt vault (wrong password?)";
                 "failed to parse secrets"]
  | Panic msg =>
      msg = "crypto/cipher: incorrect nonce length given to GCM"
      ∧ ∃ v salt nonce ciphertext,
          stored_envelope w = Some v
          ∧ envelope_fields v = Some (salt, nonce, ciphertext)
          ∧ length nonce ≠ NonceSize
  | Exit _ _ => False
  end.
Proof.
  rewrite LoadVault_eq. intros [= <- <-].
  unfold load_outcome, stored_envelope, vault_file, vault_path.
  destruct (home w) as [h|]; simpl; [|eexists _, _; split; [done|set_solver]].
  destruct (files w !! _) as [fileData|]; simpl;
    [|eexists _, _; split; [done|set_solver]].
  destruct (json_Unmarshal_VaultFile fileData) as [v|] eqn:Hv; simpl;
    [|eexists _, _; split; [done|set_solver]].
  unfold open_envelope.
  assert (∀ salt nonce ciphertext,
    base64_DecodeString (Salt v) = Some salt →
    base64_DecodeString (Nonce v) = Some nonce →
    base64_DecodeString (Data v) = Some ciphertext →
    envelope_fields v = Some (salt, nonce, ciphertext)) as Hfields.
  { intros ??? Hs Hn Hd. unfold envelope_fields. by rewrite Hs, Hn, Hd. }
  destruct (base64_DecodeString (Salt v)) as [salt|]; simpl;
    [|eexists _, _; split; [done|set_solver]].
  destruct (base64_DecodeString (Nonce v)) as [nonce|]; simpl;
    [|eexists _, _; split; [done|set_solver]].
  destruct (base64_DecodeString (Data v)) as [ciphertext|]; simpl;
    [|eexists _, _; split; [done|set_solver]].
  specialize (Hfields _ _ _ eq_refl eq_refl eq_refl).
  unfold gcm_Open. case_decide as Hn.
  - destruct (aead_Open _ _ _) as [plaintext|] eqn:Ho;
      [|eexists _, _; split; [done|set_solver]].
    destruct (json_Unmarshal_SecretsData plaintext) as [data|] eqn:Hd;
      [|eexists _, _; split; [done|set_solver]].
    by exists v, nonce, ciphertext, plaintext.
  - split; [done|]. by exists v, salt, nonce, ciphertext.
Qed.

(** X3.  [VaultExists] changes nothing, and it answers false exactly when
    [LoadVault] would fail to read the vault file because it does not
    exist. *)
Theorem VaultExists_agrees_with_LoadVault password w b w' :
  VaultExists w = (Ret b, w') →
  w' = w
  ∧ (b = false ↔
     LoadVault password w
       = (Fail (Wrap "failed to read vault file" ErrNotExist), w)).
Proof.
  rewrite VaultExists_eq, LoadVault_eq. unfold load_outcome.
  destruct (home w) as [h|]; [|done]. intros [= <- <-]. split; [done|].
  destruct (files w !! _) as [fileData|] eqn:Hf.
  - rewrite bool_decide_true by done. split; [done|].
    intros [= Hl]. exfalso. revert Hl.
    destruct (json_Unmarshal_VaultFile fileData) as [v|]; [|done].
    unfold open_envelope. repeat case_match; done.
  - rewrite bool_decide_false by (by intros [??]). done.
Qed.

(** X7.  Whatever [SaveVault] returns, it leaves the home directory, the
    terminal and the data held in memory alone, draws either nothing or
    exactly the 12 bytes of the nonce from the random source, and changes no
    file other than the vault file. *)
Theorem SaveVault_frame data password salt w o w' :
  SaveVault data password salt w = (o, w') →
  home w' = home w ∧ tty w' = tty w ∧ mem w' = mem w ∧ fault w' = fault w
  ∧ (entropy w' = entropy w ∨ entropy w = take NonceSize (entropy w) ++ entropy w')
  ∧ ∀ path, vault_path w ≠ Some path → files w' !! path = files w !! path.
Proof.
  rewrite SaveVault_eq. unfold save_outcome, vault_path, wrap, os_WriteFile.
  intros Hsave.
  assert (∀ e : list byte, e = take NonceSize e ++ drop NonceSize e) as Htd.
  { intros e. by rewrite take_drop. }
  destruct (home w) as [h|] eqn:Hh; [|simplify_eq; by split_and!; auto].
  destruct (json_Marshal data); [|simplify_eq; by split_and!; auto].
  case_decide; [|simplify_eq; by split_and!; auto]. cbv zeta in Hsave.
  destruct (json_MarshalIndent _); [|simplify_eq; by split_and!; auto].
  simpl in Hsave.
  destruct (fault w) eqn:Hfault; [| |case_decide]; simplify_eq; simpl;
    split_and!; auto; intros path Hp; try done;
    rewrite lookup_insert_ne; congruence.
Qed.

(** X8.  After a successful [SaveVault] the vault file parses to an envelope
    of version 1 whose fields decode to the salt that was passed in, the
    nonce drawn (12 bytes, the next of the random source) and the
    serialized mapping sealed under the derived key and that nonce. *)
Theorem SaveVault_envelope data password salt w w' :
  SaveVault data password salt w = (Ret (), w') →
  ∃ v nonce plaintext,
    stored_envelope w' = Some v
    ∧ Version v = 1%Z
    ∧ json_Marshal data = Some plaintext
    ∧ envelope_fields v
        = Some (salt, nonce, aead_Seal (DeriveKey password salt) nonce plaintext)
    ∧ entropy w = nonce ++ entropy w'
    ∧ length nonce = 12.
Proof.
  intros (h & plaintext & fileData & Hh & Hp & Hn & Hv & -> & Hs)%SaveVault_Ret_inv.
  eexists _, _, plaintext. split_and!; [exact Hs | done | done | | | ].
  - apply envelope_fields_envelope.
  - simpl. by rewrite take_drop.
  - by apply length_take_le.
Qed.

(** X9.  A successful [CreateVault] draws 28 random bytes, in this order:
    16 for the salt, then 12 for the nonce, both stored in the envelope; the
    new vault loads with the password to the empty (non-nil) mapping and
    that salt. *)
Theorem CreateVault_envelope password w w' :
  CreateVault password w = (Ret (), w') →
  ∃ v salt nonce ciphertext,
    stored_envelope w' = Some v
    ∧ envelope_fields v = Some (salt, nonce, ciphertext)
    ∧ length salt = 16 ∧ length nonce = 12
    ∧ entropy w = salt ++ nonce ++ entropy w'
    ∧ LoadVault password w' = (Ret ({| Secrets := Some ∅ |}, salt), w').
Proof.
  rewrite CreateVault_eq. case_decide as Hs; [|done]. intros Hsave.
  pose proof (LoadVault_after_SaveVault _ _ _ _ _ Hsave) as Hload.
  apply SaveVault_Ret_inv in Hsave
    as (h & plaintext & fileData & Hh & Hp & Hn & Hv & -> & Hst).
  simpl in *.
  eexists _, _, _, _. split_and!;
    [exact Hst | apply envelope_fields_envelope | by apply length_take_le
    | by apply length_take_le | | exact Hload].
  by rewrite !take_drop.
Qed.

End StoreMore.

(** ** main.go *)


Section CmdMore.
Context {L : Lib} {HL : LibSpec L}.

(** What every command but [init] does first: check that the vault exists,
    read the password, load the vault. *)
Ltac unlock w Hh Hex Htty Hload :=
  pose proof VaultExists_eq as HV; pose proof readPassword_eq as HR;
  pose proof LoadVault_eq as HLd;
  io_unfold; rewrite HV, Hh, bool_decide_true by exact Hex; cbn [negb];
  io_unfold; rewrite HR, Htty; io_unfold; rewrite HLd;
  rewrite (load_outcome_frame _ (set_tty _ w) w eq_refl eq_refl), Hload;
  io_unfold.

(** X10.  Without a vault file, [set], [get], [list] and [delete] exit with
    status 1 and the advice to run [secrets init], before asking for a
    password: nothing is read from the terminal and nothing changes. *)
Theorem commands_require_vault key w :
  VaultExists w = (Ret false, w) →
  cmdSet key w
    = (Exit 1 ["Error: vault does not exist"; "Run 'secrets init' first"], w)
  ∧ cmdGet key w
    = (Exit 1 ["Error: vault does not exist"; "Run 'secrets init' first"], w)
  ∧ cmdList w
    = (Exit 1 ["Error: vault does not exist"; "Run 'secrets init' first"], w)
  ∧ cmdDelete key w
    = (Exit 1 ["Error: vault does not exist"; "Run 'secrets init' first"], w).
Proof.
  intros Hv. unfold cmdSet, cmdGet, cmdList, cmdDelete. io_unfold.
  by rewrite Hv.
Qed.

(** X11.  When the vault file exists and [LoadVault] fails with an error
    for the password typed (a wrong password, a corrupt file), [set], [get],
    [list] and [delete] exit with status 1 and the line [Error: ] followed
    by the error's message; only the password has been read, and no file
    or random byte is touched. *)
Theorem commands_exit_on_load_error key password rest e w :
  tty w = password :: rest →
  LoadVault password w = (Fail e, w) →
  is_Some (vault_file w) →
  cmdSet key w = (Exit 1 ["Error: " +:+ Error_ e], set_tty rest w)
  ∧ cmdGet key w = (Exit 1 ["Error: " +:+ Error_ e], set_tty rest w)
  ∧ cmdList w = (Exit 1 ["Error: " +:+ Error_ e], set_tty rest w)
  ∧ cmdDelete key w = (Exit 1 ["Error: " +:+ Error_ e], set_tty rest w).
Proof.
  intros Htty Hload Hex. rewrite LoadVault_eq in Hload. injection Hload as Hload.
  unfold vault_file, vault_path in Hex.
  destruct (home w) as [h|] eqn:Hh; [|by destruct Hex]. simpl in Hex.
  unfold cmdSet, cmdGet, cmdList, cmdDelete.
  split_and!; by unlock w Hh Hex Htty Hload.
Qed.



(** X14.  Deleting a key the vault holds: [cmdDelete] succeeds, the mapping
    in memory and the one the saved vault loads to are the old one without
    the key (under the same salt), and a second delete of the key reports it
    as not found and changes no file. *)
Theorem cmdDelete_removes key password value rest M salt w :
  tty w = password :: password :: rest →
  LoadVault password w = (Ret ({| Secrets := Some M |}, salt), w) →
  M !! key = Some value →
  NonceSize ≤ length (entropy w) → fault w = NoFault →
  ∃ w' w'',
    cmdDelete key w = (Ret ["Secret '" +:+ key +:+ "' deleted"], w')
    ∧ mem w' = Some {| Secrets := Some (delete key M) |}
    ∧ LoadVault password w'
        = (Ret ({| Secrets := Some (delete key M) |}, salt), w')
    ∧ cmdDelete key w'
        = (Exit 1 ["Error: secret '" +:+ key +:+ "' not found"], w'')
    ∧ files w'' = files w'.
Proof.
  intros Htty Hload Hkey Hn Hf. rewrite LoadVault_eq in Hload.
  injection Hload as Hload.
  destruct (load_outcome_exists _ _ _ Hload) as (h & Hh & Hex).
  set (d' := {| Secrets := Some (delete key M) |}).
  set (w0 := set_mem (Some d') (set_mem (Some {| Secrets := Some M |})
                                  (set_tty (password :: rest) w))).
  destruct (SaveVault_Ret d' password salt w0 h) as [w1 Hsave]; [done..|].
  pose proof (LoadVault_after_SaveVault _ _ _ _ _ Hsave) as Hl.
  assert (tty w1 = password :: rest ∧ mem w1 = Some d') as [Htty1 Hmem1].
  { apply SaveVault_Ret_inv in Hsave as (? & ? & ? & _ & _ & _ & _ & -> & _).
    done. }
  exists w1, (set_mem (Some d') (set_tty rest w1)). split_and!; try done.
  - unfold cmdDelete. unlock w Hh Hex Htty Hload. simpl. rewrite Hkey.
    fold d' w0. by rewrite Hsave.
  - rewrite LoadVault_eq in Hl. injection Hl as Hl.
    destruct (load_outcome_exists _ _ _ Hl) as (h1 & Hh1 & Hex1).
    unfold cmdDelete. unlock w1 Hh1 Hex1 Htty1 Hl. simpl.
    by rewrite lookup_delete_eq.
Qed.


(** X16.  A vault whose plaintext decodes to a nil map (the [secrets] field
    null or absent) unlocks, and [cmdSet] on it then panics on the
    assignment to an entry of a nil map, before any save: no file changes
    and no random byte is drawn. *)
Theorem cmdSet_nil_map_panics key password value rest salt w :
  tty w = password :: value :: rest →
  LoadVault password w = (Ret ({| Secrets := None |}, salt), w) →
  ∃ w', cmdSet key w = (Panic "assignment to entry in nil map", w')
      ∧ files w' = files w ∧ entropy w' = entropy w.
Proof.
  intros Htty Hload. rewrite LoadVault_eq in Hload. injection Hload as Hload.
  destruct (load_outcome_exists _ _ _ Hload) as (h & Hh & Hex).
  eexists. split_and!.
  - unfold cmdSet. unlock w Hh Hex Htty Hload. rewrite HR. simpl. done.
  - done.
  - done.
Qed.

Lemma SaveVault_open_fails data password salt w h :
  home w = Some h → NonceSize ≤ length (entropy w) → fault w = OpenFails →
  SaveVault data password salt w
    = (Fail (Wrap "failed to write vault file" (ErrNew "open: permission denied")),
       set_entropy (drop NonceSize (entropy w)) w).
Proof.
  intros Hh Hn Hf. rewrite SaveVault_eq. unfold save_outcome. rewrite Hh.
  destruct (json_Marshal_total data) as [plaintext ->].
  rewrite decide_True by done. cbv zeta.
  match goal with |- context [json_MarshalIndent ?v] =>
    destruct (json_MarshalIndent_total v) as [fileData ->] end.
  unfold wrap, os_WriteFile. simpl. by rewrite Hf.
Qed.

(** X17.  When the vault file cannot be opened for writing, [cmdSet] exits
    with status 1 and the write error; the mapping in memory has the new
    entry, but the file is untouched and still loads to the old mapping. *)
Theorem cmdSet_write_refused key password value rest M salt w :
  tty w = password :: value :: rest →
  LoadVault password w = (Ret ({| Secrets := Some M |}, salt), w) →
  NonceSize ≤ length (entropy w) → fault w = OpenFails →
  ∃ w', cmdSet key w
          = (Exit 1 ["Error: failed to write vault file: open: permission denied"],
             w')
      ∧ files w' = files w
      ∧ mem w' = Some {| Secrets := Some (<[key:=value]> M) |}
      ∧ LoadVault password w' = (Ret ({| Secrets := Some M |}, salt), w').
Proof.
  intros Htty Hload Hn Hf. rewrite LoadVault_eq in Hload.
  injection Hload as Hload.
  destruct (load_outcome_exists _ _ _ Hload) as (h & Hh & Hex).
  eexists. split_and!.
  - unfold cmdSet. unlock w Hh Hex Htty Hload. rewrite HR. simpl.
    rewrite (SaveVault_open_fails _ _ _ _ h) by done. done.
  - done.
  - done.
  - rewrite LoadVault_eq. f_equal. rewrite <- Hload.
    by apply load_outcome_frame.
Qed.

(** X18.  [cmdInit] without a vault: a password shorter than 8 bytes is
    refused before the confirmation is asked for, and a confirmation that
    differs from the password is refused; in both cases the process exits
    with status 1 and only the terminal has been read. *)
Theorem cmdInit_password_policy password confirm rest w :
  VaultExists w = (Ret false, w) →
  tty w = password :: confirm :: rest →
  (String.length password < 8 →
     cmdInit w = (Exit 1 ["Error: password must be at least 8 characters"],
                  set_tty (confirm :: rest) w))
  ∧ (8 ≤ String.length password → confirm ≠ password →
     cmdInit w = (Exit 1 ["Error: passwords do not match"], set_tty rest w)).
Proof.
  intros Hv Htty. pose proof readPassword_eq as HR.
  split; [intros Hlen | intros Hlen Hne]; unfold cmdInit; io_unfold;
    rewrite Hv; io_unfold; rewrite HR, Htty; io_unfold.
  - by rewrite decide_True.
  - rewrite decide_False by lia. io_unfold. rewrite HR. simpl.
    by rewrite decide_True.
Qed.

(** X19.  [cmdInit] without a vault, a password of at least 8 bytes typed
    twice, 28 random bytes and a disk that takes the write: it succeeds, the
    vault then exists and loads with the password to the empty mapping under
    the first 16 random bytes as salt, and a second [cmdInit] is refused
    because the vault already exists, changing nothing. *)
Theorem cmdInit_creates password rest w :
  VaultExists w = (Ret false, w) →
  tty w = password :: password :: rest →
  8 ≤ String.length password →
  SaltSize + NonceSize ≤ length (entropy w) → fault w = NoFault →
  ∃ w', cmdInit w = (Ret ["Vault created successfully"], w')
      ∧ VaultExists w' = (Ret true, w')
      ∧ LoadVault password w'
          = (Ret ({| Secrets := Some ∅ |}, take SaltSize (entropy w)), w')
      ∧ cmdInit w'
          = (Exit 1 ["Error: vault already exists";
                     "Delete ~/.secrets-vault.json to create a new vault"], w').
Proof.
  intros Hv Htty Hlen Hn Hf. pose proof readPassword_eq as HR.
  assert (∃ h, home w = Some h) as [h Hh].
  { rewrite VaultExists_eq in Hv. destruct (home w); [eauto|done]. }
  set (w0 := set_tty rest (set_tty (password :: rest) w)).
  destruct (SaveVault_Ret {| Secrets := map_make |} password
              (take SaltSize (entropy w))
              (set_entropy (drop SaltSize (entropy w0)) w0) h)
    as [w' Hsave]; [done | | done |].
  { simpl. rewrite length_drop. unfold SaltSize, NonceSize in *. lia. }
  pose proof (LoadVault_after_SaveVault _ _ _ _ _ Hsave) as Hload.
  assert (VaultExists w' = (Ret true, w')) as Hv'.
  { rewrite LoadVault_eq in Hload. injection Hload as Hload.
    destruct (load_outcome_exists _ _ _ Hload) as (h' & Hh' & Hex').
    by rewrite VaultExists_eq, Hh', bool_decide_true. }
  exists w'. split_and!; [|done|done|].
  - unfold cmdInit. io_unfold. rewrite Hv. io_unfold. rewrite HR, Htty.
    io_unfold. rewrite decide_False by lia. io_unfold. rewrite HR. simpl.
    rewrite decide_False by (by intros ?). io_unfold.
    rewrite CreateVault_eq. fold w0.
    rewrite decide_True by (simpl; unfold SaltSize in *; lia).
    change (entropy w0) with (entropy w) in *. by rewrite Hsave.
  - unfold cmdInit. io_unfold. by rewrite Hv'.
Qed.

End CmdMore.

Section Dispatch.
Context {L : Lib}.

Lemma cli_Init_eq w : cli.Init w = cmdInit w.
Proof.
  unfold cli.Init, cmdInit, cli.requireNoVault, cli.ReadPassword, readPassword,
    vault.Exists, vault.Create.
  io_unfold.
  destruct (VaultExists w) as [[[]| | |] w1]; io_unfold; try done.
Qed.

Lemma cli_Get_eq key w : cli.Get key w = cmdGet key w.
Proof.
  unfold cli.Get, cmdGet, cli.requireVault, cli.unlockVault,
    cli.ReadPassword, readPassword, vault.Exists, vault.Load.
  io_unfold.
  destruct (VaultExists w) as [[[]| | |] w1]; cbn [negb]; io_unfold; try done.
  destruct (term_ReadPassword w1) as [[pw| | |] w2]; io_unfold; try done.
  destruct (LoadVault pw w2) as [[[d s]| | |] w3]; io_unfold; try done.
Qed.

Lemma cli_List_eq w : cli.List w = cmdList w.
Proof.
  unfold cli.List, cmdList, cli.requireVault, cli.unlockVault,
    cli.ReadPassword, readPassword, vault.Exists, vault.Load.
  io_unfold.
  destruct (VaultExists w) as [[[]| | |] w1]; cbn [negb]; io_unfold; try done.
  destruct (term_ReadPassword w1) as [[pw| | |] w2]; io_unfold; try done.
  destruct (LoadVault pw w2) as [[[d s]| | |] w3]; io_unfold; try done.
Qed.

(** X20.  The writing commands of package [cli] ([Init], [Set], [Delete]),
    written with [requireNoVault], [requireVault] and [unlockVault], compute
    the same outcome and the same final world as [cmdInit], [cmdSet] and
    [cmdDelete] of [main.go], on every world and key. *)
Theorem cli_commands_agree w :
  cli.Init w = cmdInit w
  ∧ ∀ key, cli.Set_ key w = cmdSet key w
         ∧ cli.Delete key w = cmdDelete key w.
Proof.
  split; [apply cli_Init_eq |].
  intros key. split; [apply cli_Set_eq | apply cli_Delete_eq].
Qed.

(** X22.  The reading commands of package [cli] ([Get], [List]), written
    with [requireVault] and [unlockVault], compute the same outcome and the
    same final world as [cmdGet] and [cmdList] of [main.go], on every world
    and key. *)
Theorem cli_queries_agree w :
  cli.List w = cmdList w ∧ ∀ key, cli.Get key w = cmdGet key w.
Proof.
  split; [apply cli_List_eq |].
  intros key. apply cli_Get_eq.
Qed.

(** X21.  Usage errors of [main].  With no command, [main] prints the usage
    and exits with status 1; [set], [get] and [delete] without a key exit
    with status 1 and the missing-key message; a command that is none of the
    eight known words exits with status 1, naming it.  None of these reads
    the terminal or changes anything. *)
Theorem main_usage_errors prog w :
  main [] w = (Exit 1 printUsage, w)
  ∧ main [prog] w = (Exit 1 printUsage, w)
  ∧ (∀ c, c ∈ ["set"; "get"; "delete"] →
       main [prog; c] w
         = (Exit 1 ["Error: missing key argument";
                    "Usage: secrets " +:+ c +:+ " <key>"], w))
  ∧ (∀ c rest,
       c ∉ ["init"; "set"; "get"; "list"; "delete"; "help"; "--help"; "-h"] →
       main (prog :: c :: rest) w
         = (Exit 1 (("Error: unknown command '" +:+ c +:+ "'") :: printUsage), w)).
Proof.
  split_and!; try done.
  - intros c Hc. unfold main.
    repeat (apply elem_of_cons in Hc as [->|Hc]; [done|]).
    by apply elem_of_nil in Hc.
  - intros c rest Hc. unfold main.
    rewrite !not_elem_of_cons in Hc.
    destruct Hc as (? & ? & ? & ? & ? & ? & ? & ? & _).
    by rewrite !decide_False by tauto.
Qed.

(** X23.  When the home directory cannot be determined, every command
    ([init] included) exits with status 1 and the home-directory error,
    before asking for anything: nothing is read from the terminal and
    nothing changes. *)
Theorem commands_without_home key w :
  home w = None →
  let out := (Exit 1 ["Error: failed to get home directory: $HOME is not defined"], w) in
  cmdInit w = out ∧ cmdSet key w = out ∧ cmdGet key w = out
  ∧ cmdList w = out ∧ cmdDelete key w = out.
Proof.
  intros Hh out. pose proof (VaultExists_eq w) as HV. rewrite Hh in HV.
  unfold cmdInit, cmdSet, cmdGet, cmdList, cmdDelete. io_unfold.
  by rewrite HV.
Qed.

(** X24.  When the password cannot be read (the terminal gives end of
    input), [init] without a vault, and [set], [get], [list] and [delete]
    on an existing vault, exit with status 1 and the password-reading
    error before the vault file is read: nothing changes. *)
Theorem commands_without_terminal key (b : bool) w :
  tty w = [] →
  VaultExists w = (Ret b, w) →
  let out := (Exit 1 ["Error: failed to read password: EOF"], w) in
  if b then
    cmdSet key w = out ∧ cmdGet key w = out
    ∧ cmdList w = out ∧ cmdDelete key w = out
  else cmdInit w = out.
Proof.
  intros Htty HV out. pose proof (readPassword_eq) as HR.
  unfold cmdInit, cmdSet, cmdGet, cmdList, cmdDelete.
  destruct b; io_unfold; rewrite HV; cbn [negb]; io_unfold;
    by rewrite HR, Htty.
Qed.

End Dispatch.

(** ** The further theorems at work *)
Module MoreExamples.
Import Ref RefFacts.

Lemma Decrypt_Encrypt_witness :
  ∃ nonce ciphertext w',
    Encrypt (bytes_of "plain") (DeriveKey Run.password Run.salt) Run.w_none
      = (Ret (nonce, ciphertext), w')
    ∧ length nonce = 12
    ∧ entropy Run.w_none = nonce ++ entropy w'
    ∧ files w' = files Run.w_none
    ∧ Decrypt ciphertext nonce (DeriveKey Run.password Run.salt) w'
        = (Ret (bytes_of "plain"), w').
Proof.
  apply Decrypt_Encrypt.
  - apply DeriveKey_length.
  - replace (length (entropy Run.w_none)) with 64 by (vm_compute; reflexivity).
    unfold NonceSize. lia.
Defined.

Lemma LoadVault_outcomes_witness :
  ∃ v nonce ciphertext plaintext,
    stored_envelope Run.w_saved = Some v
    ∧ envelope_fields v = Some (Run.salt, nonce, ciphertext)
    ∧ length nonce = NonceSize
    ∧ aead_Open (DeriveKey Run.password Run.salt) nonce ciphertext = Some plaintext
    ∧ json_Unmarshal_SecretsData plaintext = Some Run.secrets1.
Proof.
  apply (LoadVault_outcomes Run.password Run.w_saved
           (Ret (Run.secrets1, Run.salt)) Run.w_saved).
  vm_compute. reflexivity.
Defined.

Lemma VaultExists_agrees_with_LoadVault_witness :
  Run.w_none = Run.w_none
  ∧ (false = false ↔
     LoadVault Run.password Run.w_none
       = (Fail (Wrap "failed to read vault file" ErrNotExist), Run.w_none)).
Proof.
  apply (VaultExists_agrees_with_LoadVault Run.password Run.w_none false).
  vm_compute. reflexivity.
Defined.

Lemma SaveVault_frame_witness :
  home Run.w_saved = home Run.w_none ∧ tty Run.w_saved = tty Run.w_none
  ∧ mem Run.w_saved = mem Run.w_none ∧ fault Run.w_saved = fault Run.w_none
  ∧ (entropy Run.w_saved = entropy Run.w_none
     ∨ entropy Run.w_none
         = take NonceSize (entropy Run.w_none) ++ entropy Run.w_saved)
  ∧ ∀ path, vault_path Run.w_none ≠ Some path →
      files Run.w_saved !! path = files Run.w_none !! path.
Proof.
  apply (SaveVault_frame Run.secrets1 Run.password Run.salt Run.w_none (Ret ())).
  exact Examples.w_saved_eq.
Defined.

Lemma SaveVault_envelope_witness :
  ∃ v nonce plaintext,
    stored_envelope Run.w_saved = Some v
    ∧ Version v = 1%Z
    ∧ json_Marshal Run.secrets1 = Some plaintext
    ∧ envelope_fields v
        = Some (Run.salt, nonce,
                aead_Seal (DeriveKey Run.password Run.salt) nonce plaintext)
    ∧ entropy Run.w_none = nonce ++ entropy Run.w_saved
    ∧ length nonce = 12.
Proof.
  apply (SaveVault_envelope Run.secrets1 Run.password Run.salt Run.w_none).
  exact Examples.w_saved_eq.
Defined.

Lemma CreateVault_envelope_witness :
  ∃ v salt nonce ciphertext,
    stored_envelope (CreateVault Run.password Run.w_none).2 = Some v
    ∧ envelope_fields v = Some (salt, nonce, ciphertext)
    ∧ length salt = 16 ∧ length nonce = 12
    ∧ entropy Run.w_none
        = salt ++ nonce ++ entropy (CreateVault Run.password Run.w_none).2
    ∧ LoadVault Run.password (CreateVault Run.password Run.w_none).2
        = (Ret ({| Secrets := Some ∅ |}, salt),
           (CreateVault Run.password Run.w_none).2).
Proof.
  apply (CreateVault_envelope Run.password Run.w_none).
  vm_compute. reflexivity.
Defined.

Lemma commands_require_vault_witness :
  cmdSet "k" Run.w_none
    = (Exit 1 ["Error: vault does not exist"; "Run 'secrets init' first"], Run.w_none)
  ∧ cmdGet "k" Run.w_none
    = (Exit 1 ["Error: vault does not exist"; "Run 'secrets init' first"], Run.w_none)
  ∧ cmdList Run.w_none
    = (Exit 1 ["Error: vault does not exist"; "Run 'secrets init' first"], Run.w_none)
  ∧ cmdDelete "k" Run.w_none
    = (Exit 1 ["Error: vault does not exist"; "Run 'secrets init' first"], Run.w_none).
Proof.
  apply commands_require_vault. vm_compute. reflexivity.
Defined.

Lemma commands_exit_on_load_error_witness :
  cmdSet "k" (set_tty ["wrong-password"] Run.w_saved)
    = (Exit 1 ["Error: " +:+ Error_ ErrDecrypt], set_tty [] (set_tty ["wrong-password"] Run.w_saved))
  ∧ cmdGet "k" (set_tty ["wrong-password"] Run.w_saved)
    = (Exit 1 ["Error: " +:+ Error_ ErrDecrypt], set_tty [] (set_tty ["wrong-password"] Run.w_saved))
  ∧ cmdList (set_tty ["wrong-password"] Run.w_saved)
    = (Exit 1 ["Error: " +:+ Error_ ErrDecrypt], set_tty [] (set_tty ["wrong-password"] Run.w_saved))
  ∧ cmdDelete "k" (set_tty ["wrong-password"] Run.w_saved)
    = (Exit 1 ["Error: " +:+ Error_ ErrDecrypt], set_tty [] (set_tty ["wrong-password"] Run.w_saved)).
Proof.
  apply (commands_exit_on_load_error "k" "wrong-password" []).
  - reflexivity.
  - vm_compute. reflexivity.
  - vm_compute. eauto.
Defined.


Lemma w_saved_loads_with (t : list string) :
  LoadVault Run.password (set_tty t Run.w_saved)
    = (Ret (Run.secrets1, Run.salt), set_tty t Run.w_saved).
Proof.
  rewrite LoadVault_eq.
  rewrite (load_outcome_frame _ (set_tty t Run.w_saved) Run.w_saved eq_refl eq_refl).
  replace (load_outcome Run.password Run.w_saved)
    with (Ret (A:=SecretsData * list byte) (Run.secrets1, Run.salt))
    by (vm_compute; reflexivity).
  reflexivity.
Qed.


Lemma cmdDelete_removes_witness :
  ∃ w' w'',
    cmdDelete "api_key" (set_tty [Run.password; Run.password] Run.w_saved)
      = (Ret ["Secret '" +:+ "api_key" +:+ "' deleted"], w')
    ∧ mem w' = Some {| Secrets := Some (delete "api_key" {[ "api_key" := "xyz123" ]}) |}
    ∧ LoadVault Run.password w'
        = (Ret ({| Secrets := Some (delete "api_key" {[ "api_key" := "xyz123" ]}) |},
                Run.salt), w')
    ∧ cmdDelete "api_key" w'
        = (Exit 1 ["Error: secret '" +:+ "api_key" +:+ "' not found"], w'')
    ∧ files w'' = files w'.
Proof.
  apply (cmdDelete_removes "api_key" Run.password "xyz123" [] _ Run.salt).
  - reflexivity.
  - apply w_saved_loads_with.
  - vm_compute. reflexivity.
  - replace (length (entropy (set_tty [Run.password; Run.password] Run.w_saved)))
      with 52 by (vm_compute; reflexivity).
    unfold NonceSize. lia.
  - reflexivity.
Defined.


Lemma cmdSet_nil_map_panics_witness :
  ∃ w', cmdSet "k"
          (set_tty [Run.password; "v"]
             (SaveVault {| Secrets := None |} Run.password Run.salt Run.w_none).2)
          = (Panic "assignment to entry in nil map", w')
      ∧ files w'
          = files (set_tty [Run.password; "v"]
                     (SaveVault {| Secrets := None |} Run.password Run.salt
                        Run.w_none).2)
      ∧ entropy w'
          = entropy (set_tty [Run.password; "v"]
                       (SaveVault {| Secrets := None |} Run.password Run.salt
                          Run.w_none).2).
Proof.
  apply (cmdSet_nil_map_panics "k" Run.password "v" [] Run.salt).
  - reflexivity.
  - vm_compute. reflexivity.
Defined.

Lemma cmdSet_write_refused_witness :
  ∃ w', cmdSet "db"
          (mkWorld (home Run.w_saved) (files Run.w_saved) (entropy Run.w_saved)
             OpenFails [Run.password; "pw1"] None)
          = (Exit 1 ["Error: failed to write vault file: open: permission denied"],
             w')
      ∧ files w' = files Run.w_saved
      ∧ mem w' = Some {| Secrets := Some (<["db":="pw1"]> {[ "api_key" := "xyz123" ]}) |}
      ∧ LoadVault Run.password w'
          = (Ret ({| Secrets := Some {[ "api_key" := "xyz123" ]} |}, Run.salt), w').
Proof.
  apply (cmdSet_write_refused "db" Run.password "pw1" [] _ Run.salt
           (mkWorld (home Run.w_saved) (files Run.w_saved) (entropy Run.w_saved)
              OpenFails [Run.password; "pw1"] None)).
  - reflexivity.
  - vm_compute. reflexivity.
  - replace (length (entropy Run.w_saved)) with 52 by (vm_compute; reflexivity).
    unfold NonceSize. simpl. lia.
  - reflexivity.
Defined.

Lemma cmdInit_password_policy_witness :
  cmdInit (set_tty ["short"; "short"] Run.w_none)
    = (Exit 1 ["Error: password must be at least 8 characters"],
       set_tty ["short"] (set_tty ["short"; "short"] Run.w_none)).
Proof.
  apply (proj1 (cmdInit_password_policy "short" "short" []
                  (set_tty ["short"; "short"] Run.w_none)
                  ltac:(vm_compute; reflexivity) eq_refl)).
  vm_compute. lia.
Defined.

Lemma cmdInit_creates_witness :
  ∃ w', cmdInit Run.w_none = (Ret ["Vault created successfully"], w')
      ∧ VaultExists w' = (Ret true, w')
      ∧ LoadVault Run.password w'
          = (Ret ({| Secrets := Some ∅ |}, take SaltSize (entropy Run.w_none)), w')
      ∧ cmdInit w'
          = (Exit 1 ["Error: vault already exists";
                     "Delete ~/.secrets-vault.json to create a new vault"], w').
Proof.
  apply (cmdInit_creates Run.password []).
  - vm_compute. reflexivity.
  - reflexivity.
  - vm_compute. lia.
  - replace (length (entropy Run.w_none)) with 64 by (vm_compute; reflexivity).
    unfold SaltSize, NonceSize. lia.
  - reflexivity.
Defined.

Lemma commands_without_home_witness :
  let w := mkWorld None (files Run.w_saved) [] NoFault [] None in
  let out := (Exit 1 ["Error: failed to get home directory: $HOME is not defined"], w) in
  cmdInit w = out ∧ cmdSet "k" w = out ∧ cmdGet "k" w = out
  ∧ cmdList w = out ∧ cmdDelete "k" w = out.
Proof.
  apply (commands_without_home "k" (mkWorld None (files Run.w_saved) [] NoFault [] None)). reflexivity.
Defined.

Lemma commands_without_terminal_witness :
  (let w := set_tty [] Run.w_saved in
   let out := (Exit 1 ["Error: failed to read password: EOF"], w) in
   cmdSet "k" w = out ∧ cmdGet "k" w = out
   ∧ cmdList w = out ∧ cmdDelete "k" w = out)
  ∧ (let w := set_tty [] Run.w_none in
     cmdInit w = (Exit 1 ["Error: failed to read password: EOF"], w)).
Proof.
  split.
  - apply (commands_without_terminal "k" true (set_tty [] Run.w_saved));
      [reflexivity | vm_compute; reflexivity].
  - apply (commands_without_terminal "k" false (set_tty [] Run.w_none));
      [reflexivity | vm_compute; reflexivity].
Defined.

End MoreExamples.
